(** * ConfigManager: validation and cached loading of JSON configurations

    A shallow embedding of [ConfigManager.py]: the [validate_config]
    decorator, the [ConfigLoader] class and its [load] method, which is
    wrapped first by [validate_config] and then by [functools.lru_cache].

    Python objects are values together with an identity; exceptions are an
    inductive type; the interpreter state threaded through every call holds
    the allocation counter, the cache that [lru_cache] attaches to the
    function [ConfigLoader.load], and a trace of the file-system accesses
    and logging calls made so far.  The file system is an input of each
    call, so that it may change between two calls. *)

From Stdlib Require Import ZArith Ascii String.
From stdpp Require Import gmap strings list.

Set Warnings "-register-all".
Local Open Scope string_scope.

(** ** Python values *)

(** The classes of the objects [json.load] can return. *)
Inductive pytype := Tstr | Tint | Tbool | Tfloat | Tlist | Tdict | TNoneType.

#[global] Instance pytype_eq_dec : EqDecision pytype.
Proof. solve_decision. Defined.

(** A [float] is kept as the text of its JSON literal: the program only ever
    looks at the class of a value, never at the number. A [dict] decoded
    from JSON has string keys. *)
Inductive value :=
| VNone
| VBool (b : bool)
| VInt (z : Z)
| VFloat (lit : string)
| VStr (s : string)
| VList (l : list value)
| VDict (d : gmap string value).

(** [type(v)] *)
Definition type_of (v : value) : pytype :=
  match v with
  | VNone => TNoneType
  | VBool _ => Tbool
  | VInt _ => Tint
  | VFloat _ => Tfloat
  | VStr _ => Tstr
  | VList _ => Tlist
  | VDict _ => Tdict
  end.

(** [issubclass(a, b)]: among these classes the only proper subclass relation
    is [bool <: int]. *)
Definition issubclass (a b : pytype) : bool :=
  bool_decide (a = b) || (bool_decide (a = Tbool) && bool_decide (b = Tint)).

(** [isinstance(v, t)] *)
Definition isinstance (v : value) (t : pytype) : bool :=
  issubclass (type_of v) t.

(** [repr] of a class, as an f-string prints it. *)
Definition class_repr (t : pytype) : string :=
  match t with
  | Tstr => "<class 'str'>"
  | Tint => "<class 'int'>"
  | Tbool => "<class 'bool'>"
  | Tfloat => "<class 'float'>"
  | Tlist => "<class 'list'>"
  | Tdict => "<class 'dict'>"
  | TNoneType => "<class 'NoneType'>"
  end.

(** An object is a value with an identity ([id(obj)]). The program never
    mutates the objects it loads, so the value travels with the identity. *)
Record object := Object { obj_id : nat; obj_val : value }.

(** ** Exceptions *)

(** [ConfigError] is the only exception class the program defines; the others
    are the built-in exceptions that the operations it calls can raise. *)
Inductive exn :=
| ConfigError (msg : string)
| JSONDecodeError
| TypeError
| KeyError (key : string)
| IsADirectoryError (path : string)
| FileNotFoundError (path : string).

(** What [except ConfigError] catches: none of the built-in exceptions is a
    subclass of [ConfigError]. *)
Definition is_ConfigError (e : exn) : bool :=
  match e with
  | ConfigError _ => true
  | _ => false
  end.

Inductive result (A : Type) :=
| Ok (a : A)
| Raise (e : exn).
Arguments Ok {A} a.
Arguments Raise {A} e.

(** The message of each [raise ConfigError(f"...")] of the program. *)
Definition msg_missing_key (key : string) : string :=
  "Missing key in configuration: " ++ key.

Definition msg_incorrect_type (key : string) (expected actual : pytype) : string :=
  "Incorrect type for " ++ key ++ ": expected " ++ class_repr expected
    ++ ", got " ++ class_repr actual.

Definition msg_not_found (file_path : string) : string :=
  "Configuration file not found: " ++ file_path.

(** The error kinds of the specification's taxonomy, read as the
    [ConfigError]s the program raises at the corresponding places. *)
Definition MissingKeyError (key : string) : exn :=
  ConfigError (msg_missing_key key).

Definition TypeMismatchError (key : string) (expected actual : pytype) : exn :=
  ConfigError (msg_incorrect_type key expected actual).

Definition FileNotFoundConfigError (file_path : string) : exn :=
  ConfigError (msg_not_found file_path).

(** ** Interpreter state *)

(** Observable effects: calls of [os.path.exists] and [open], and the two
    [logging.info] calls of the program. *)
Inductive event :=
| FsExists (path : string)
| FsOpen (path : string)
| LogValidated (schema : list (string * pytype))
| LogLoaded (path : string).

(** The key [lru_cache] builds from the positional arguments [(self,
    config_name)]: [self] hashes and compares by identity, the name by
    value. *)
Definition cache_key : Type := nat * string.

Record state := State {
  next_id : nat;
  cache : list (cache_key * object);
  trace : list event
}.

Definition initial_state : state :=
  {| next_id := 0; cache := []; trace := [] |}.

(** State and exception monad. *)
Definition M (A : Type) : Type := state -> result A * state.

Definition ret {A} (a : A) : M A := fun st => (Ok a, st).

Definition raise {A} (e : exn) : M A := fun st => (Raise e, st).

Definition bind {A B} (m : M A) (f : A -> M B) : M B :=
  fun st =>
    match m st with
    | (Ok a, st') => f a st'
    | (Raise e, st') => (Raise e, st')
    end.

Notation "x <- c1 ;; c2" := (bind c1 (fun x => c2))
  (at level 100, c1 at next level, right associativity).
Notation "c1 ;; c2" := (bind c1 (fun _ => c2))
  (at level 100, right associativity).

Definition lift {A} (r : result A) : M A := fun st => (r, st).

Definition emit (ev : event) : M unit :=
  fun st => (Ok tt, {| next_id := next_id st; cache := cache st;
                       trace := trace st ++ [ev] |}).

Definition get_cache : M (list (cache_key * object)) :=
  fun st => (Ok (cache st), st).

Definition set_cache (c : list (cache_key * object)) : M unit :=
  fun st => (Ok tt, {| next_id := next_id st; cache := c; trace := trace st |}).

(** Allocation of a new object: a fresh identity. *)
Definition new_id : M nat :=
  fun st => (Ok (next_id st),
             {| next_id := S (next_id st); cache := cache st; trace := trace st |}).

Definition alloc (v : value) : M object :=
  i <- new_id ;; ret (Object i v).

(** ** The [validate_config] decorator *)

(** [needle in haystack] on two [str]: substring test. *)
Fixpoint str_contains (needle haystack : string) : bool :=
  String.prefix needle haystack ||
  match haystack with
  | EmptyString => false
  | String _ rest => str_contains needle rest
  end.

(** [key in config] for a [str] key. A [dict] tests its keys, a [list] its
    elements (only a [str] element can equal a [str]), a [str] its
    substrings; the other classes have no [__contains__] and are not
    iterable. *)
Definition py_in (key : string) (config : value) : result bool :=
  match config with
  | VDict d => Ok (bool_decide (is_Some (d !! key)))
  | VList l =>
      Ok (existsb (fun v => match v with
                            | VStr s => String.eqb s key
                            | _ => false
                            end) l)
  | VStr s => Ok (str_contains key s)
  | VNone | VBool _ | VInt _ | VFloat _ => Raise TypeError
  end.

(** [config[key]] for a [str] key: only a [dict] can be indexed by a
    string. *)
Definition py_getitem (config : value) (key : string) : result value :=
  match config with
  | VDict d =>
      match d !! key with
      | Some v => Ok v
      | None => Raise (KeyError key)
      end
  | _ => Raise TypeError
  end.

(** A schema is a dict literal; [schema.items()] enumerates it in the order
    it was written. *)
Definition schema_t : Type := list (string * pytype).

(** One iteration of the loop of [wrapper], for [key, expected_type]:
    the membership test comes first, the [isinstance] test second. *)
Definition check_entry (config : value) (key : string)
    (expected_type : pytype) : result unit :=
  match py_in key config with
  | Raise e => Raise e
  | Ok false => Raise (ConfigError (msg_missing_key key))
  | Ok true =>
      match py_getitem config key with
      | Raise e => Raise e
      | Ok v =>
          if isinstance v expected_type then Ok tt
          else Raise (ConfigError
                        (msg_incorrect_type key expected_type (type_of v)))
      end
  end.

(** The loop itself: [for key, expected_type in schema.items(): ...]; the
    first [raise] leaves it. *)
Fixpoint check_schema (schema : schema_t) (config : value) : result unit :=
  match schema with
  | [] => Ok tt
  | (key, expected_type) :: rest =>
      match check_entry config key expected_type with
      | Ok _ => check_schema rest config
      | Raise e => Raise e
      end
  end.

(** [validate_config(schema)(func)]: the decorated function calls [func],
    checks what it returned, logs, and returns the very same object. *)
Definition validate_config {Args : Type} (schema : schema_t)
    (func : Args -> M object) : Args -> M object :=
  fun args =>
    config <- func args ;;
    lift (check_schema schema (obj_val config)) ;;
    emit (LogValidated schema) ;;
    ret config.

(** The validator on its own, applied to an object already at hand (the
    decorator around a function that just returns it). *)
Definition validate (schema : schema_t) (config : object) : M object :=
  validate_config schema (fun cfg : object => ret cfg) config.

(** ** [functools.lru_cache] *)

Definition key_eqb (k1 k2 : cache_key) : bool := bool_decide (k1 = k2).

(** Lookup in the cache. *)
Fixpoint cache_get (key : cache_key) (c : list (cache_key * object))
    : option object :=
  match c with
  | [] => None
  | (k, o) :: rest => if key_eqb key k then Some o else cache_get key rest
  end.

(** Unlinking the entry of a key. *)
Definition cache_remove (key : cache_key) (c : list (cache_key * object))
    : list (cache_key * object) :=
  filter (fun e => e.1 <> key) c.

Definition cache_keys (c : list (cache_key * object)) : list cache_key :=
  fst <$> c.

(** The ConfigLoader instance: its identity and its attribute. *)
Record ConfigLoader := Loader { self_id : nat; config_dir : string }.

(** [ConfigLoader(config_dir)] *)
Definition ConfigLoader_init (dir : string) : M ConfigLoader :=
  i <- new_id ;; ret (Loader i dir).

Definition make_key (self : ConfigLoader) (config_name : string) : cache_key :=
  (self_id self, config_name).

(** [lru_cache(maxsize)(user_function)] for a method called as
    [self.f(config_name)]. The cache is a list of entries from the least
    to the most recently used; it belongs to the decorated function, not to
    [self]. A hit moves the entry to the most recent end and returns the
    stored object without calling [user_function]. A miss calls
    [user_function]; when it raises nothing is stored; when it returns, the
    result is stored, replacing the oldest entry when the cache is full.
    With [maxsize = 0] nothing is cached. *)
Definition lru_cache (maxsize : nat)
    (user_function : ConfigLoader -> string -> M object)
    (self : ConfigLoader) (config_name : string) : M object :=
  let key := make_key self config_name in
  match maxsize with
  | 0 => user_function self config_name
  | S _ =>
      c <- get_cache ;;
      match cache_get key c with
      | Some result =>
          set_cache (cache_remove key c ++ [(key, result)])%list ;;
          ret result
      | None =>
          result <- user_function self config_name ;;
          c' <- get_cache ;;
          match cache_get key c' with
          | Some _ => ret result
          | None =>
              if (maxsize <=? length c')%nat
              then set_cache (tail c' ++ [(key, result)])%list ;; ret result
              else set_cache (c' ++ [(key, result)])%list ;; ret result
          end
      end
  end.

(** ** File system and [os.path] *)

Inductive node :=
| File (text : string)
| Dir.

Abbreviation filesystem := (gmap string node).

(** [os.path.join(a, b)] (POSIX): an absolute [b] discards [a]; otherwise
    the two are joined by one separator unless [a] is empty or already ends
    with it. *)
Definition startswith_sep (b : string) : bool :=
  match b with
  | String "/" _ => true
  | _ => false
  end.

Fixpoint endswith_sep (a : string) : bool :=
  match a with
  | EmptyString => false
  | String c EmptyString => bool_decide (c = "/"%char)
  | String _ rest => endswith_sep rest
  end.

Definition os_path_join (a b : string) : string :=
  if startswith_sep b then b
  else if bool_decide (a = "") || endswith_sep a then a ++ b
  else a ++ "/" ++ b.

(** [os.path.exists(path)] *)
Definition os_path_exists (fs : filesystem) (path : string) : M bool :=
  emit (FsExists path) ;;
  ret (bool_decide (is_Some (fs !! path))).

(** [open(path, 'r')] followed by reading the whole text. *)
Definition open_read (fs : filesystem) (path : string) : M string :=
  emit (FsOpen path) ;;
  match fs !! path with
  | Some (File text) => ret text
  | Some Dir => raise (IsADirectoryError path)
  | None => raise (FileNotFoundError path)
  end.

(** ** A JSON decoder

    [ConfigLoader.load] calls the standard library's [json.load]; the
    development is parametric in it (see section [Loader]). The decoder
    below follows [json.decoder] on byte strings and is the instance used
    in the worked examples: it returns [None] where [json.load] raises
    [JSONDecodeError]. *)

Definition is_ws (c : ascii) : bool :=
  let n := N_of_ascii c in
  bool_decide (n = 32 \/ n = 9 \/ n = 10 \/ n = 13)%N.

Definition is_digit (c : ascii) : bool :=
  let n := N_of_ascii c in (48 <=? n)%N && (n <=? 57)%N.

Fixpoint skip_ws (s : string) : string :=
  match s with
  | String c rest => if is_ws c then skip_ws rest else s
  | EmptyString => s
  end.

Fixpoint strip_prefix (p s : string) : option string :=
  match p with
  | EmptyString => Some s
  | String a p' =>
      match s with
      | String b s' => if Ascii.eqb a b then strip_prefix p' s' else None
      | EmptyString => None
      end
  end.

(** The longest prefix of digits, and what follows it. *)
Fixpoint span_digits (s : string) : string * string :=
  match s with
  | String c rest =>
      if is_digit c
      then let '(ds, r) := span_digits rest in (String c ds, r)
      else (EmptyString, s)
  | EmptyString => (EmptyString, s)
  end.

Fixpoint digits_value (acc : Z) (ds : string) : Z :=
  match ds with
  | String c rest =>
      digits_value (10 * acc + (Z.of_N (N_of_ascii c) - 48))%Z rest
  | EmptyString => acc
  end.

(** [NUMBER_RE]: an integer part, then an optional fraction and an optional
    exponent; the literal is a [float] as soon as one of the two is there. *)
Definition scan_number (s : string) : option (value * string) :=
  let '(neg, s1) :=
    match s with
    | String "-" r => (true, r)
    | _ => (false, s)
    end in
  let int_part :=
    match s1 with
    | String "0" r => Some ("0", r)
    | String c _ => if is_digit c then Some (span_digits s1) else None
    | EmptyString => None
    end in
  match int_part with
  | None => None
  | Some (ds, r1) =>
      let '(frac, r2) :=
        match r1 with
        | String "." r =>
            let '(fd, r') := span_digits r in
            if bool_decide (fd = "") then ("", r1) else (String "." fd, r')
        | _ => ("", r1)
        end in
      let '(exp, r3) :=
        match r2 with
        | String e r =>
            if bool_decide (e = "e"%char \/ e = "E"%char)
            then
              let '(sg, r') :=
                match r with
                | String "-" q => ("-", q)
                | String "+" q => ("+", q)
                | _ => ("", r)
                end in
              let '(ed, r'') := span_digits r' in
              if bool_decide (ed = "") then ("", r2)
              else (String e (sg ++ ed), r'')
            else ("", r2)
        | EmptyString => ("", r2)
        end in
      if bool_decide (frac = "") && bool_decide (exp = "")
      then Some (VInt (if neg then - digits_value 0 ds else digits_value 0 ds)%Z, r3)
      else Some (VFloat ((if neg then "-" else "") ++ ds ++ frac ++ exp), r3)
  end.

Definition hex_value (c : ascii) : option N :=
  let n := N_of_ascii c in
  if (48 <=? n)%N && (n <=? 57)%N then Some (n - 48)%N
  else if (65 <=? n)%N && (n <=? 70)%N then Some (n - 55)%N
  else if (97 <=? n)%N && (n <=? 102)%N then Some (n - 87)%N
  else None.

Definition hex4 (a b c d : ascii) : option N :=
  match hex_value a, hex_value b, hex_value c, hex_value d with
  | Some x, Some y, Some z, Some w => Some (4096 * x + 256 * y + 16 * z + w)%N
  | _, _, _, _ => None
  end.

(** A code point as the bytes of its UTF-8 encoding. *)
Definition utf8_encode (cp : N) : string :=
  let byte n := ascii_of_N n in
  if (cp <? 128)%N then String (byte cp) ""
  else if (cp <? 2048)%N then
    String (byte (192 + cp / 64)%N) (String (byte (128 + cp mod 64)%N) "")
  else if (cp <? 65536)%N then
    String (byte (224 + cp / 4096)%N)
      (String (byte (128 + (cp / 64) mod 64)%N)
         (String (byte (128 + cp mod 64)%N) ""))
  else
    String (byte (240 + cp / 262144)%N)
      (String (byte (128 + (cp / 4096) mod 64)%N)
         (String (byte (128 + (cp / 64) mod 64)%N)
            (String (byte (128 + cp mod 64)%N) ""))).

Definition simple_escape (e : ascii) : option ascii :=
  match e with
  | "034"%char => Some "034"%char
  | "\"%char => Some "\"%char
  | "/"%char => Some "/"%char
  | "b"%char => Some "008"%char
  | "f"%char => Some "012"%char
  | "n"%char => Some "010"%char
  | "r"%char => Some "013"%char
  | "t"%char => Some "009"%char
  | _ => None
  end.

(** [scanstring] in strict mode, from just after the opening quote: the
    decoded string and what follows the closing quote. The double quote is
    the character of code 34. *)
Fixpoint scanstring (s : string) : option (string * string) :=
  match s with
  | EmptyString => None
  | String "034" rest => Some ("", rest)
  | String "\" (String "u" (String a (String b (String c (String d rest))))) =>
      match hex4 a b c d with
      | None => None
      | Some hi =>
          let single :=
            match scanstring rest with
            | Some (str, r) => Some (utf8_encode hi ++ str, r)
            | None => None
            end in
          if (55296 <=? hi)%N && (hi <=? 56319)%N then
            match rest with
            | String "\" (String "u" (String a' (String b' (String c' (String d' rest'))))) =>
                match hex4 a' b' c' d' with
                | None => None
                | Some lo =>
                    if (56320 <=? lo)%N && (lo <=? 57343)%N then
                      match scanstring rest' with
                      | Some (str, r) =>
                          Some (utf8_encode (65536 + ((hi - 55296) * 1024 + (lo - 56320)))%N
                                  ++ str, r)
                      | None => None
                      end
                    else single
                end
            | _ => single
            end
          else single
      end
  | String "\" (String e rest) =>
      match simple_escape e with
      | Some ch =>
          match scanstring rest with
          | Some (str, r) => Some (String ch str, r)
          | None => None
          end
      | None => None
      end
  | String "\" EmptyString => None
  | String c rest =>
      if (N_of_ascii c <? 32)%N then None
      else
        match scanstring rest with
        | Some (str, r) => Some (String c str, r)
        | None => None
        end
  end.

(** Literals other than strings, arrays and objects. *)
Definition scan_atom (s : string) : option (value * string) :=
  match strip_prefix "null" s with
  | Some r => Some (VNone, r)
  | None =>
  match strip_prefix "true" s with
  | Some r => Some (VBool true, r)
  | None =>
  match strip_prefix "false" s with
  | Some r => Some (VBool false, r)
  | None =>
  match scan_number s with
  | Some res => Some res
  | None =>
  match strip_prefix "NaN" s with
  | Some r => Some (VFloat "NaN", r)
  | None =>
  match strip_prefix "Infinity" s with
  | Some r => Some (VFloat "Infinity", r)
  | None =>
  match strip_prefix "-Infinity" s with
  | Some r => Some (VFloat "-Infinity", r)
  | None => None
  end end end end end end end.

(** [scan_once], [JSONArray] and [JSONObject]. Every call either consumes a
    character or is followed by one that does, so twice the length of the
    text is enough fuel. A repeated key of an object keeps its last
    value. *)
Fixpoint scan_once (fuel : nat) (s : string) : option (value * string) :=
  match fuel with
  | O => None
  | S fuel' =>
      match s with
      | String "034" r =>
          match scanstring r with
          | Some (str, r') => Some (VStr str, r')
          | None => None
          end
      | String "{" r =>
          match skip_ws r with
          | String "}" r' => Some (VDict ∅, r')
          | r1 => scan_members fuel' ∅ r1
          end
      | String "[" r =>
          match skip_ws r with
          | String "]" r' => Some (VList [], r')
          | r1 => scan_elements fuel' [] r1
          end
      | _ => scan_atom s
      end
  end
with scan_elements (fuel : nat) (acc : list value) (s : string)
    : option (value * string) :=
  match fuel with
  | O => None
  | S fuel' =>
      match scan_once fuel' s with
      | None => None
      | Some (v, r) =>
          match skip_ws r with
          | String "," r' => scan_elements fuel' (acc ++ [v])%list (skip_ws r')
          | String "]" r' => Some (VList (acc ++ [v])%list, r')
          | _ => None
          end
      end
  end
with scan_members (fuel : nat) (acc : gmap string value) (s : string)
    : option (value * string) :=
  match fuel with
  | O => None
  | S fuel' =>
      match s with
      | String "034" r =>
          match scanstring r with
          | None => None
          | Some (key, r1) =>
              match skip_ws r1 with
              | String ":" r2 =>
                  match scan_once fuel' (skip_ws r2) with
                  | None => None
                  | Some (v, r3) =>
                      match skip_ws r3 with
                      | String "," r4 =>
                          scan_members fuel' (<[key:=v]> acc) (skip_ws r4)
                      | String "}" r4 => Some (VDict (<[key:=v]> acc), r4)
                      | _ => None
                      end
                  end
              | _ => None
              end
          end
      | _ => None
      end
  end.

(** [json.loads(text)]: one value, surrounded by white space only. *)
Definition json_decode (text : string) : option value :=
  match scan_once (2 * String.length text + 2) (skip_ws text) with
  | Some (v, r) => if bool_decide (skip_ws r = "") then Some v else None
  | None => None
  end.

(** ** [ConfigLoader.load] *)

(** The schema of the decorator on [load]. *)
Definition load_schema : schema_t :=
  [("host", Tstr); ("port", Tint); ("debug", Tbool)].

Section Loader.

(** [json.loads], of the standard library: the decoded value, or [None]
    where it raises [JSONDecodeError]. *)
Variable json_loads : string -> option value.

(** [json.load(file)]: a successful decoding builds a new object. *)
Definition json_load (text : string) : M object :=
  match json_loads text with
  | Some v => alloc v
  | None => raise JSONDecodeError
  end.

(** The body of [load], before decoration. *)
Definition load_body (fs : filesystem) (self : ConfigLoader)
    (config_name : string) : M object :=
  let file_path := os_path_join (config_dir self) (config_name ++ ".json") in
  found <- os_path_exists fs file_path ;;
  if negb found then raise (ConfigError (msg_not_found file_path))
  else
    text <- open_read fs file_path ;;
    config <- json_load text ;;
    emit (LogLoaded file_path) ;;
    ret config.

(** [load] under [@validate_config(schema=...)]. *)
Definition load_validated (fs : filesystem) (self : ConfigLoader)
    (config_name : string) : M object :=
  validate_config load_schema
    (fun args : ConfigLoader * string => load_body fs args.1 args.2)
    (self, config_name).

(** [ConfigLoader.load]: [@lru_cache(maxsize=5)] around the validated
    function. *)
Definition load (fs : filesystem) : ConfigLoader -> string -> M object :=
  lru_cache 5 (load_validated fs).

(** Loading several names in turn through one loader, as a caller's
    sequence of statements: the first exception ends it. *)
Fixpoint load_all (fs : filesystem) (self : ConfigLoader)
    (names : list string) : M (list object) :=
  match names with
  | [] => ret []
  | name :: rest =>
      o <- load fs self name ;;
      os <- load_all fs self rest ;;
      ret (o :: os)
  end.

(** Loading one name again and again through one loader, the file system
    being whatever it is at the time of each call. *)
Fixpoint load_repeat (fss : list filesystem) (self : ConfigLoader)
    (config_name : string) : M (list object) :=
  match fss with
  | [] => ret []
  | fs :: rest =>
      o <- load fs self config_name ;;
      os <- load_repeat rest self config_name ;;
      ret (o :: os)
  end.

End Loader.

(** The path [load] resolves a name to. *)
Definition config_path (self : ConfigLoader) (config_name : string) : string :=
  os_path_join (config_dir self) (config_name ++ ".json").

(** ** Invariant of the cache *)

(** Reachable caches hold at most [maxsize = 5] entries, one per key. *)
Definition cache_ok (c : list (cache_key * object)) : Prop :=
  (length c <= 5)%nat /\ NoDup (cache_keys c).

(** ** Reading aids for the validator *)

(** A schema entry is satisfied by a dict when its key is bound to an
    instance of the expected class. *)
Definition entry_ok (d : gmap string value) (e : string * pytype) : Prop :=
  exists v, d !! e.1 = Some v /\ isinstance v e.2 = true.

(** The same with the class of the value being exactly the expected one. *)
Definition entry_exact (d : gmap string value) (e : string * pytype) : Prop :=
  exists v, d !! e.1 = Some v /\ type_of v = e.2.

(** The first key of the schema, in its enumeration order, that the dict
    does not have. *)
Fixpoint first_missing_key (schema : schema_t) (d : gmap string value)
    : option string :=
  match schema with
  | [] => None
  | (key, _) :: rest =>
      match d !! key with
      | None => Some key
      | Some _ => first_missing_key rest d
      end
  end.

(** The state after more events. *)
Definition logged (st : state) (evs : list event) : state :=
  {| next_id := next_id st; cache := cache st; trace := trace st ++ evs |}.

(** The keys of the cache after a successful call with key [k], from the
    keys before it: a key already there moves to the most recent end; a new
    key is appended, the oldest one leaving when the cache is full. *)
Definition touch (k : cache_key) (ks : list cache_key) : list cache_key :=
  if decide (k ∈ ks) then (filter (fun k' => k' <> k) ks ++ [k])%list
  else if (5 <=? length ks)%nat then (tail ks ++ [k])%list
  else (ks ++ [k])%list.

(** ** Worked examples: file systems, loaders and states *)

(** The texts of the example files are written here with an apostrophe
    where the file has a double quote. *)
Fixpoint json_text (s : string) : string :=
  match s with
  | EmptyString => EmptyString
  | String c rest =>
      String (if Ascii.eqb c "'" then "034"%char else c) (json_text rest)
  end.

Definition app_config_text : string :=
  json_text "{'host': 'localhost', 'port': 8080, 'debug': true}".

Definition other_config_text : string :=
  json_text "{'host': 'example.org', 'port': 443, 'debug': false}".

(** A directory [configs] with valid files, one whose port is a boolean,
    one without port, a malformed one and one that holds a number. *)
Definition demo_fs : filesystem :=
  list_to_map
    [("configs", Dir);
     ("configs/app_config.json", File app_config_text);
     ("configs/c1.json", File app_config_text);
     ("configs/c2.json", File app_config_text);
     ("configs/c3.json", File app_config_text);
     ("configs/c4.json", File app_config_text);
     ("configs/c5.json", File app_config_text);
     ("configs/c6.json", File app_config_text);
     ("configs/bool_port.json",
      File (json_text "{'host': 'localhost', 'port': true, 'debug': false}"));
     ("configs/bad.json", File (json_text "{'host': 'localhost'}"));
     ("configs/broken.json", File "{not valid json");
     ("configs/five.json", File "5")].

(** The same directory after [app_config.json] was rewritten. *)
Definition demo_fs_modified : filesystem :=
  <["configs/app_config.json" := File other_config_text]> demo_fs.

(** The same directory after [app_config.json] was deleted. *)
Definition demo_fs_deleted : filesystem :=
  delete "configs/app_config.json" demo_fs.

(** Two loader instances on the same directory. *)
Definition loader_a : ConfigLoader := Loader 0 "configs".
Definition loader_b : ConfigLoader := Loader 1 "configs".

(** The state once both loaders have been constructed. *)
Definition two_loaders_state : state :=
  {| next_id := 2; cache := []; trace := [] |}.

(** Loader [a] has loaded [c1]; then loader [b] loads four names, and a
    fifth one. *)
Definition after_a_c1 : state :=
  (load json_decode demo_fs loader_a "c1" two_loaders_state).2.

Definition after_b_four : state :=
  (load_all json_decode demo_fs loader_b ["c1"; "c2"; "c3"; "c4"]
     after_a_c1).2.

Definition after_b_five : state :=
  (load json_decode demo_fs loader_b "c5" after_b_four).2.

(** What [app_config_text] decodes to. *)
Definition app_config : gmap string value :=
  list_to_map [("host", VStr "localhost"); ("port", VInt 8080);
               ("debug", VBool true)].

(** A configuration whose port is a boolean. *)
Definition bool_port_config : gmap string value :=
  list_to_map [("host", VStr "localhost"); ("port", VBool true);
               ("debug", VBool false)].

(** A configuration with an ill-typed host and neither port nor debug. *)
Definition bad_host_config : gmap string value :=
  list_to_map [("host", VInt 5)].

(** A valid configuration with an extra key. *)
Definition extra_key_config : gmap string value :=
  list_to_map [("host", VStr "localhost"); ("port", VInt 8080);
               ("debug", VBool true); ("timeout", VInt 30)].

(** ** Reading aids for the loader *)

(** A configuration that satisfies the schema of [load]. *)
Definition valid_config (o : object) : Prop :=
  exists d, obj_val o = VDict d /\ Forall (entry_ok d) load_schema.

(** Every cached object satisfies the schema. *)
Definition cache_valid (c : list (cache_key * object)) : Prop :=
  Forall (fun e => valid_config e.2) c.

(** The identities of the cached objects are below the allocation counter
    and differ from one entry to the other. *)
Definition cache_ids (c : list (cache_key * object)) : list nat :=
  (fun e => obj_id e.2) <$> c.

Definition ids_fresh (st : state) : Prop :=
  Forall (fun i => (i < next_id st)%nat) (cache_ids (cache st))
  /\ NoDup (cache_ids (cache st)).

(** ** Callers *)

Section Callers.

(** [json.loads], as in section [Loader]. *)
Variable json_loads : string -> option value.

(** What a client of the module can do: create a loader, or call [load]
    through some loader, with the file system as it is at that time. *)
Inductive client_op :=
| NewLoader (dir : string)
| Load (fs : filesystem) (self : ConfigLoader) (config_name : string).

(** The state a client leaves after a series of operations, going on after
    an exception. *)
Fixpoint run_ops (ops : list client_op) (st : state) : state :=
  match ops with
  | [] => st
  | NewLoader dir :: rest => run_ops rest (ConfigLoader_init dir st).2
  | Load fs self config_name :: rest =>
      run_ops rest (load json_loads fs self config_name st).2
  end.

(** *** The script under [if __name__ == "__main__"] *)

(** The [logging] calls of the script itself; those of the library stay in
    the trace of the interpreter state. *)
Inductive script_log :=
| InfoAppConfiguration (cfg : object)
| InfoCachedConfiguration (cfg : object)
| LogError (msg : string).

Record script_state := ScriptState {
  lib_state : state;
  console : list script_log
}.

Definition Script (A : Type) : Type :=
  script_state -> result A * script_state.

Definition script_bind {A B} (m : Script A) (f : A -> Script B) : Script B :=
  fun s =>
    match m s with
    | (Ok a, s') => f a s'
    | (Raise e, s') => (Raise e, s')
    end.

(** A call into the library. *)
Definition call_lib {A} (m : M A) : Script A :=
  fun s =>
    match m (lib_state s) with
    | (r, st') => (r, {| lib_state := st'; console := console s |})
    end.

Definition script_logging (entry : script_log) : Script unit :=
  fun s => (Ok tt, {| lib_state := lib_state s;
                      console := (console s ++ [entry])%list |}).

(** [try: body except ConfigError as e: handler(str(e))] *)
Definition try_except_ConfigError {A} (body : Script A)
    (handler : string -> Script A) : Script A :=
  fun s =>
    match body s with
    | (Raise (ConfigError msg), s') => handler msg s'
    | other => other
    end.

(** The script: [fs1] and [fs2] are the file system at the time of the
    first and of the second call of [load]. *)
Definition main (fs1 fs2 : filesystem) : Script unit :=
  script_bind (call_lib (ConfigLoader_init "configs")) (fun config_loader =>
  try_except_ConfigError
    (script_bind (call_lib (load json_loads fs1 config_loader "app_config"))
       (fun app_config =>
     script_bind (script_logging (InfoAppConfiguration app_config)) (fun _ =>
     script_bind (call_lib (load json_loads fs2 config_loader "app_config"))
       (fun cached_config =>
     script_logging (InfoCachedConfiguration cached_config)))))
    (fun msg => script_logging (LogError ("Configuration error: " ++ msg)))).

End Callers.

(** The script starts in a new process. *)
Definition fresh_process : script_state :=
  {| lib_state := initial_state; console := [] |}.

(** The loader the script creates, and the state of the library once it
    has been created. *)
Definition script_loader : ConfigLoader := Loader 0 "configs".

Definition script_start : state :=
  {| next_id := 1; cache := []; trace := [] |}.

(** More example data: a port given as a string, and the state of the
    refresh example, where loader [a] has loaded [c1] to [c5], then [c1]
    again, then [c6]. *)
Definition string_port_config : gmap string value :=
  list_to_map [("host", VStr "localhost"); ("port", VStr "80");
               ("debug", VBool true)].

Definition after_a_five : state :=
  (load_all json_decode demo_fs loader_a ["c1"; "c2"; "c3"; "c4"; "c5"]
     two_loaders_state).2.

Definition after_a_refresh : state :=
  (load json_decode demo_fs loader_a "c1" after_a_five).2.

(** ** Proof tactics *)

(** From an equation between two runs, the equations between their results
    and between their final states. *)
Ltac split_run H :=
  let Hr := fresh "Hr" in
  let Hs := fresh "Hs" in
  pose proof (f_equal fst H) as Hr;
  pose proof (f_equal snd H) as Hs;
  cbn [fst snd] in Hr, Hs; clear H;
  try (injection Hr as Hr); subst.

(** Non-membership in an explicit list, from pairwise disequalities. *)
Ltac split_notin :=
  repeat match goal with
         | H : _ /\ _ |- _ => destruct H
         | H : _ ∉ _ :: _ |- _ => apply not_elem_of_cons in H
         end.

Ltac solve_notin :=
  repeat (apply not_elem_of_cons; split);
  first [apply not_elem_of_nil | congruence].

(** * Properties of the validator *)

Local Open Scope list_scope.

Section ValidatorFacts.

Implicit Types (d : gmap string value) (schema : schema_t) (st : state).

Lemma check_schema_cons key ty rest config :
  check_schema ((key, ty) :: rest) config =
    match check_entry config key ty with
    | Ok _ => check_schema rest config
    | Raise e => Raise e
    end.
Proof. reflexivity. Qed.

Lemma issubclass_refl t : issubclass t t = true.
Proof. unfold issubclass. rewrite bool_decide_eq_true_2; done. Qed.

Lemma isinstance_exact v t : type_of v = t -> isinstance v t = true.
Proof. intros <-. apply issubclass_refl. Qed.

Lemma isinstance_int v :
  isinstance v Tint = true <-> type_of v = Tint \/ type_of v = Tbool.
Proof. destruct v; vm_compute; intuition congruence. Qed.

(** On a dict the membership test is the lookup. *)
Lemma check_entry_dict d key ty :
  check_entry (VDict d) key ty =
    match d !! key with
    | None => Raise (MissingKeyError key)
    | Some v =>
        if isinstance v ty then Ok tt
        else Raise (TypeMismatchError key ty (type_of v))
    end.
Proof.
  unfold check_entry; cbn.
  destruct (d !! key) as [v|] eqn:E.
  - rewrite bool_decide_eq_true_2 by eauto. reflexivity.
  - rewrite bool_decide_eq_false_2; [reflexivity|].
    intros [? ?]; discriminate.
Qed.

Lemma check_entry_ok d key ty :
  check_entry (VDict d) key ty = Ok tt <-> entry_ok d (key, ty).
Proof.
  rewrite check_entry_dict. unfold entry_ok; cbn. split.
  - destruct (d !! key) as [v|]; [|discriminate].
    destruct (isinstance v ty) eqn:E; [eauto|discriminate].
  - intros (v & -> & ->). reflexivity.
Qed.

Lemma check_schema_ok schema d :
  check_schema schema (VDict d) = Ok tt <-> Forall (entry_ok d) schema.
Proof.
  induction schema as [|[key ty] rest IH].
  - split; [constructor|reflexivity].
  - rewrite check_schema_cons, Forall_cons, <- IH, <- check_entry_ok.
    destruct (check_entry (VDict d) key ty) as [[]|e]; intuition congruence.
Qed.

(** Entries that pass are skipped: the outcome is that of the rest of the
    loop. *)
Lemma check_schema_skip pre rest d :
  Forall (entry_ok d) pre ->
  check_schema (pre ++ rest) (VDict d) = check_schema rest (VDict d).
Proof.
  induction 1 as [|[key ty] pre Hok _ IH]; [reflexivity|].
  apply check_entry_ok in Hok.
  rewrite <- app_comm_cons, check_schema_cons, Hok. exact IH.
Qed.

Lemma first_missing_key_skip pre rest d :
  Forall (entry_ok d) pre ->
  first_missing_key (pre ++ rest) d = first_missing_key rest d.
Proof.
  induction 1 as [|[key ty] pre (v & Hv & _) _ IH]; cbn; [reflexivity|].
  cbn in Hv. rewrite Hv. exact IH.
Qed.

(** [validate] is the check followed by the log entry. *)
Lemma validate_config_run {Args} schema (func : Args -> M object) args st :
  validate_config schema func args st =
    match func args st with
    | (Ok o, st1) =>
        match check_schema schema (obj_val o) with
        | Ok _ => (Ok o, logged st1 [LogValidated schema])
        | Raise e => (Raise e, st1)
        end
    | (Raise e, st1) => (Raise e, st1)
    end.
Proof.
  unfold validate_config, bind, lift, emit, ret, logged.
  destruct (func args st) as [[o|e] st1]; [|reflexivity].
  destruct (check_schema schema (obj_val o)) as [[]|e]; reflexivity.
Qed.

Lemma validate_run schema o st :
  validate schema o st =
    match check_schema schema (obj_val o) with
    | Ok _ => (Ok o, logged st [LogValidated schema])
    | Raise e => (Raise e, st)
    end.
Proof. unfold validate. rewrite validate_config_run. reflexivity. Qed.

Lemma missing_not_mismatch key key' ty actual :
  MissingKeyError key <> TypeMismatchError key' ty actual.
Proof. unfold MissingKeyError, TypeMismatchError. cbn. discriminate. Qed.

End ValidatorFacts.

(** ** Type matching (C1) *)

(** C1, the claim as stated fails: the schema of [load] maps [port] to
    [int], the configuration binds [port] to [True], and validation succeeds
    instead of failing with a type mismatch; so does [load] on a file with
    such a port. *)
Lemma validate_bool_port_counterexample :
  ("port", Tint) ∈ load_schema
  /\ bool_port_config !! "port" = Some (VBool true)
  /\ validate load_schema (Object 0 (VDict bool_port_config)) initial_state
     = (Ok (Object 0 (VDict bool_port_config)),
        logged initial_state [LogValidated load_schema])
  /\ (load json_decode demo_fs loader_a "bool_port" two_loaders_state).1
     = Ok (Object 2 (VDict bool_port_config)).
Proof.
  split; [set_solver|].
  split; [vm_compute; reflexivity|].
  split; vm_compute; reflexivity.
Qed.

(** C1, as amended: type matching is [isinstance], under which [bool] is a
    subclass of [int]. For every schema mapping a key to the integer type
    and every configuration in which that key is bound to a boolean, the
    check of that key passes, and validation succeeds when the other schema
    entries are satisfied. A value bound to an integer-typed key is rejected
    with a type mismatch exactly when it is neither an integer nor a
    boolean. *)
Theorem validate_bool_for_int schema d key b i st :
  (key, Tint) ∈ schema ->
  d !! key = Some (VBool b) ->
  Forall (fun e => e = (key, Tint) \/ entry_ok d e) schema ->
  check_entry (VDict d) key Tint = Ok tt
  /\ validate schema (Object i (VDict d)) st
     = (Ok (Object i (VDict d)), logged st [LogValidated schema])
  /\ (forall d' v, d' !! key = Some v ->
        check_entry (VDict d') key Tint
          = Raise (TypeMismatchError key Tint (type_of v))
        <-> type_of v <> Tint /\ type_of v <> Tbool).
Proof.
  intros _ Hb Hrest.
  assert (Hkey : entry_ok d (key, Tint)) by (exists (VBool b); split; done).
  split; [by apply check_entry_ok|]. split.
  - rewrite validate_run; cbn.
    assert (Hall : Forall (entry_ok d) schema).
    { eapply Forall_impl; [exact Hrest|]. intros e [->|He]; assumption. }
    apply check_schema_ok in Hall. rewrite Hall. reflexivity.
  - intros d' v Hv. rewrite check_entry_dict, Hv.
    pose proof (isinstance_int v) as Hint.
    destruct (isinstance v Tint); split.
    + discriminate.
    + intros [H1 H2]. destruct Hint as [Hint _].
      destruct (Hint eq_refl); contradiction.
    + intros _. split; intros Ht; destruct Hint as [_ Hint];
        (assert (false = true) by (apply Hint; auto)); discriminate.
    + reflexivity.
Qed.

Lemma validate_bool_for_int_witness :
  check_entry (VDict bool_port_config) "port" Tint = Ok tt
  /\ validate load_schema (Object 0 (VDict bool_port_config)) initial_state
     = (Ok (Object 0 (VDict bool_port_config)),
        logged initial_state [LogValidated load_schema])
  /\ (forall d' v, d' !! "port" = Some v ->
        check_entry (VDict d') "port" Tint
          = Raise (TypeMismatchError "port" Tint (type_of v))
        <-> type_of v <> Tint /\ type_of v <> Tbool).
Proof.
  apply (validate_bool_for_int load_schema bool_port_config "port" true 0
           initial_state).
  - apply list_elem_of_In. right; left; reflexivity.
  - vm_compute; reflexivity.
  - constructor; [|constructor; [|constructor; [|constructor]]].
    + right. exists (VStr "localhost"). split; vm_compute; reflexivity.
    + left. reflexivity.
    + right. exists (VBool false). split; vm_compute; reflexivity.
Defined.

(** ** Missing keys (C7) *)

(** C7, the claim as stated fails: the configuration [{"host": 5}] misses
    [port] (its first missing key in schema order) and [debug], yet
    validation fails on [host], which comes first in the schema and has the
    wrong type: the error is a type mismatch, not a missing key. *)
Lemma validate_missing_key_counterexample :
  first_missing_key load_schema bad_host_config = Some "port"
  /\ (validate load_schema (Object 0 (VDict bad_host_config)) initial_state).1
     = Raise (TypeMismatchError "host" Tstr Tint)
  /\ (validate load_schema (Object 0 (VDict bad_host_config)) initial_state).1
     <> Raise (MissingKeyError "port").
Proof.
  split; [vm_compute; reflexivity|].
  split; [vm_compute; reflexivity|].
  vm_compute. discriminate.
Qed.

(** C7, as amended: validation fails at the first schema entry, in
    enumeration order, that is violated. When every entry before the first
    missing key is satisfied, the failure is the missing-key error naming
    that key; within one entry absence is tested before the type, so an
    absent key gives the missing-key error whatever the expected type, and
    never a type mismatch. *)
Theorem validate_first_missing_key pre key ty post d i st :
  Forall (entry_ok d) pre ->
  d !! key = None ->
  first_missing_key (pre ++ (key, ty) :: post) d = Some key
  /\ (forall ty', check_entry (VDict d) key ty' = Raise (MissingKeyError key))
  /\ validate (pre ++ (key, ty) :: post) (Object i (VDict d)) st
     = (Raise (MissingKeyError key), st)
  /\ (forall key' ty' actual,
        (validate (pre ++ (key, ty) :: post) (Object i (VDict d)) st).1
        <> Raise (TypeMismatchError key' ty' actual)).
Proof.
  intros Hpre Hkey.
  assert (Hentry : forall ty',
             check_entry (VDict d) key ty' = Raise (MissingKeyError key)).
  { intros ty'. rewrite check_entry_dict, Hkey. reflexivity. }
  assert (Hrun : validate (pre ++ (key, ty) :: post) (Object i (VDict d)) st
                 = (Raise (MissingKeyError key), st)).
  { rewrite validate_run; cbn [obj_val].
    rewrite check_schema_skip by assumption.
    rewrite check_schema_cons, Hentry. reflexivity. }
  split.
  - rewrite first_missing_key_skip by assumption. cbn. rewrite Hkey. reflexivity.
  - split; [exact Hentry|]. split; [exact Hrun|].
    intros key' ty' actual. rewrite Hrun; cbn [fst]. intros Heq.
    apply (missing_not_mismatch key key' ty' actual). congruence.
Qed.

Lemma validate_first_missing_key_witness :
  first_missing_key
    ([("host", Tstr)] ++ ("port", Tint) :: [("debug", Tbool)])
    (<["host" := VStr "localhost"]> ∅) = Some "port"
  /\ (forall ty', check_entry (VDict (<["host" := VStr "localhost"]> ∅)) "port" ty'
                  = Raise (MissingKeyError "port"))
  /\ validate ([("host", Tstr)] ++ ("port", Tint) :: [("debug", Tbool)])
       (Object 0 (VDict (<["host" := VStr "localhost"]> ∅))) initial_state
     = (Raise (MissingKeyError "port"), initial_state)
  /\ (forall key' ty' actual,
        (validate ([("host", Tstr)] ++ ("port", Tint) :: [("debug", Tbool)])
           (Object 0 (VDict (<["host" := VStr "localhost"]> ∅))) initial_state).1
        <> Raise (TypeMismatchError key' ty' actual)).
Proof.
  apply (validate_first_missing_key [("host", Tstr)] "port" Tint
           [("debug", Tbool)] (<["host" := VStr "localhost"]> ∅) 0 initial_state).
  - constructor; [|constructor].
    exists (VStr "localhost"). split; vm_compute; reflexivity.
  - vm_compute; reflexivity.
Defined.

(** ** Pass-through (C8) *)

(** C8: when the configuration returned by the decorated function has every
    schema key bound to a value of the expected type, the decorated call
    succeeds and returns that very object, same identity and same value, so
    that no key, of the schema or not, is added, removed or changed; the
    only effect is the log entry. *)
Theorem validate_config_pass_through {Args : Type} schema
    (func : Args -> M object) args st o st1 d :
  func args st = (Ok o, st1) ->
  obj_val o = VDict d ->
  Forall (entry_exact d) schema ->
  validate_config schema func args st
  = (Ok o, logged st1 [LogValidated schema]).
Proof.
  intros Hf Hd Hall.
  rewrite validate_config_run, Hf, Hd.
  assert (Hok : Forall (entry_ok d) schema).
  { eapply Forall_impl; [exact Hall|].
    intros e (v & Hv & Ht). exists v. split; [exact Hv|].
    by apply isinstance_exact. }
  apply check_schema_ok in Hok. rewrite Hok. reflexivity.
Qed.

Lemma validate_config_pass_through_witness :
  extra_key_config !! "timeout" = Some (VInt 30)
  /\ validate load_schema (Object 7 (VDict extra_key_config)) initial_state
     = (Ok (Object 7 (VDict extra_key_config)),
        logged initial_state [LogValidated load_schema]).
Proof.
  split; [vm_compute; reflexivity|].
  unfold validate.
  apply (validate_config_pass_through load_schema (fun cfg : object => ret cfg)
           (Object 7 (VDict extra_key_config)) initial_state
           (Object 7 (VDict extra_key_config)) initial_state extra_key_config).
  - reflexivity.
  - reflexivity.
  - constructor; [|constructor; [|constructor; [|constructor]]].
    + exists (VStr "localhost"). split; vm_compute; reflexivity.
    + exists (VInt 8080). split; vm_compute; reflexivity.
    + exists (VBool true). split; vm_compute; reflexivity.
Defined.

(** * Properties of the cache *)

Section CacheFacts.

Implicit Types (c : list (cache_key * object)) (k : cache_key) (o : object).

Lemma key_eqb_eq k1 k2 : key_eqb k1 k2 = true <-> k1 = k2.
Proof. unfold key_eqb. apply bool_decide_eq_true. Qed.

Lemma cache_get_cons k k' o c :
  cache_get k ((k', o) :: c) = if key_eqb k k' then Some o else cache_get k c.
Proof. reflexivity. Qed.

Lemma cache_get_app k c1 c2 :
  cache_get k (c1 ++ c2) =
    match cache_get k c1 with
    | Some o => Some o
    | None => cache_get k c2
    end.
Proof.
  induction c1 as [|[k' o] c1 IH]; [reflexivity|].
  rewrite <- app_comm_cons, !cache_get_cons.
  destruct (key_eqb k k'); [reflexivity|exact IH].
Qed.

Lemma cache_get_None k c : cache_get k c = None <-> k ∉ cache_keys c.
Proof.
  unfold cache_keys. induction c as [|[k' o] c IH].
  - split; [intros _; apply not_elem_of_nil|reflexivity].
  - rewrite cache_get_cons, fmap_cons, not_elem_of_cons; cbn [fst].
    destruct (key_eqb k k') eqn:E.
    + apply key_eqb_eq in E. split; [discriminate|]. intros [Hne _]. done.
    + rewrite IH. split; [|tauto]. intros H; split; [|exact H].
      intros ->. unfold key_eqb in E.
      rewrite bool_decide_eq_true_2 in E; done.
Qed.

Lemma cache_get_Some k c o : cache_get k c = Some o -> k ∈ cache_keys c.
Proof.
  intros H. destruct (decide (k ∈ cache_keys c)) as [|Hn]; [assumption|].
  apply cache_get_None in Hn. congruence.
Qed.

Lemma cache_get_last k c o :
  cache_get k c = None -> cache_get k (c ++ [(k, o)]) = Some o.
Proof.
  intros H. rewrite cache_get_app, H, cache_get_cons.
  unfold key_eqb. rewrite bool_decide_eq_true_2; done.
Qed.

Lemma cache_keys_remove k c :
  cache_keys (cache_remove k c) = filter (fun k' => k' <> k) (cache_keys c).
Proof.
  unfold cache_keys, cache_remove.
  induction c as [|[k' o] c IH]; [reflexivity|].
  rewrite fmap_cons, !filter_cons; cbn [fst].
  destruct (decide (k' <> k)); [rewrite fmap_cons; cbn [fst]; f_equal|]; exact IH.
Qed.

Lemma cache_get_remove k c : cache_get k (cache_remove k c) = None.
Proof.
  apply cache_get_None. rewrite cache_keys_remove.
  intros [H _]%list_elem_of_filter. by apply H.
Qed.

Lemma cache_keys_app c1 c2 :
  cache_keys (c1 ++ c2) = cache_keys c1 ++ cache_keys c2.
Proof. unfold cache_keys. apply fmap_app. Qed.

Lemma cache_keys_tail c : cache_keys (tail c) = tail (cache_keys c).
Proof. destruct c; reflexivity. Qed.

(** Removing a key that occurs makes the list shorter. *)
Lemma filter_ne_length (k : cache_key) (ks : list cache_key) :
  k ∈ ks -> (length (filter (fun k' => k' <> k) ks) < length ks)%nat.
Proof.
  induction ks as [|k' ks IH]; [intros H; by apply elem_of_nil in H|].
  intros H. rewrite filter_cons.
  destruct (decide (k' <> k)) as [Hne|Heq]; cbn [length].
  - apply elem_of_cons in H as [->|H]; [done|]. specialize (IH H). lia.
  - pose proof (length_filter (fun k' => k' <> k) ks). lia.
Qed.

Lemma filter_ne_id (k : cache_key) (ks : list cache_key) :
  k ∉ ks -> filter (fun k' => k' <> k) ks = ks.
Proof.
  induction ks as [|k' ks IH]; [reflexivity|].
  intros [Hne Hn]%not_elem_of_cons. rewrite filter_cons.
  destruct (decide (k' <> k)) as [|Hc]; [by rewrite IH|].
  exfalso; apply Hc; congruence.
Qed.

(** A call with a new key keeps the most recent keys in place behind
    it, as long as there are fewer than five of them, and never lets the
    cache grow beyond five entries. *)
Lemma touch_suffix k pre suf :
  k ∉ suf ->
  (length suf < 5)%nat ->
  (length (pre ++ suf) <= 5)%nat ->
  exists pre', touch k (pre ++ suf) = pre' ++ suf ++ [k]
               /\ (length (touch k (pre ++ suf)) <= 5)%nat.
Proof.
  intros Hk Hsuf Hlen. unfold touch.
  destruct (decide (k ∈ pre ++ suf)) as [Hin|Hnin].
  - exists (filter (fun k' => k' <> k) pre). split.
    + rewrite filter_app, (filter_ne_id k suf Hk), app_assoc. reflexivity.
    + pose proof (filter_ne_length k _ Hin). rewrite length_app; cbn. lia.
  - destruct (5 <=? length (pre ++ suf))%nat eqn:Hfull.
    + apply Nat.leb_le in Hfull. rewrite length_app in Hfull.
      destruct pre as [|p pre]; [cbn in Hfull; lia|].
      exists pre. split; [cbn; by rewrite app_assoc|].
      rewrite length_app in *; cbn in *. rewrite length_app. lia.
    + apply Nat.leb_gt in Hfull.
      exists pre. split; [by rewrite app_assoc|].
      rewrite length_app; cbn. lia.
Qed.

Lemma touch_length k ks :
  (length ks <= 5)%nat -> (length (touch k ks) <= 5)%nat.
Proof.
  intros H. destruct (touch_suffix k ks []) as (pre' & _ & Hlen).
  - apply not_elem_of_nil.
  - cbn; lia.
  - by rewrite app_nil_r.
  - by rewrite app_nil_r in Hlen.
Qed.

Lemma touch_NoDup k ks : NoDup ks -> NoDup (touch k ks).
Proof.
  intros Hnd. unfold touch.
  destruct (decide (k ∈ ks)) as [Hin|Hnin].
  - apply NoDup_app. split; [by apply NoDup_filter|]. split.
    + intros x [Hx _]%list_elem_of_filter [->|[]%elem_of_nil]%elem_of_cons.
      by apply Hx.
    + apply NoDup_singleton.
  - assert (Hsnoc : forall l : list cache_key,
               NoDup l -> k ∉ l -> NoDup (l ++ [k])).
    { intros l Hl Hk. apply NoDup_app. split; [exact Hl|]. split.
      - intros x Hx [->|[]%elem_of_nil]%elem_of_cons. by apply Hk.
      - apply NoDup_singleton. }
    destruct (5 <=? length ks)%nat; [|by apply Hsnoc].
    destruct ks as [|k' ks]; [by apply Hsnoc|]. cbn [tail].
    apply NoDup_cons in Hnd as [_ Hnd].
    apply Hsnoc; [exact Hnd|]. intros Hk. apply Hnin. by right.
Qed.

End CacheFacts.

(** * Properties of [load] *)

Section LoaderFacts.

Variable json_loads : string -> option value.

Implicit Types (fs : filesystem) (self : ConfigLoader) (st : state)
  (o : object) (e : exn).

(** The outcome of the undecorated body, case by case. *)
Lemma load_body_run fs self name st :
  load_body json_loads fs self name st =
    let p := config_path self name in
    match fs !! p with
    | None =>
        (Raise (FileNotFoundConfigError p), logged st [FsExists p])
    | Some Dir =>
        (Raise (IsADirectoryError p), logged st [FsExists p; FsOpen p])
    | Some (File text) =>
        match json_loads text with
        | None => (Raise JSONDecodeError, logged st [FsExists p; FsOpen p])
        | Some v =>
            (Ok (Object (next_id st) v),
             {| next_id := S (next_id st); cache := cache st;
                trace := trace st ++ [FsExists p; FsOpen p; LogLoaded p] |})
        end
    end.
Proof.
  unfold load_body, config_path, os_path_exists, open_read, json_load,
    alloc, new_id, bind, emit, ret, raise, logged; cbn.
  destruct (fs !! _) as [[text|]|]; cbn;
    [destruct (json_loads text); cbn| |];
    rewrite <- ?app_assoc; reflexivity.
Qed.

(** The outcome of the validated function, case by case. *)
Lemma load_validated_run fs self name st :
  load_validated json_loads fs self name st =
    let p := config_path self name in
    match fs !! p with
    | None =>
        (Raise (FileNotFoundConfigError p), logged st [FsExists p])
    | Some Dir =>
        (Raise (IsADirectoryError p), logged st [FsExists p; FsOpen p])
    | Some (File text) =>
        match json_loads text with
        | None => (Raise JSONDecodeError, logged st [FsExists p; FsOpen p])
        | Some v =>
            match check_schema load_schema v with
            | Ok _ =>
                (Ok (Object (next_id st) v),
                 {| next_id := S (next_id st); cache := cache st;
                    trace := trace st ++ [FsExists p; FsOpen p; LogLoaded p;
                                          LogValidated load_schema] |})
            | Raise e =>
                (Raise e,
                 {| next_id := S (next_id st); cache := cache st;
                    trace := trace st ++ [FsExists p; FsOpen p; LogLoaded p] |})
            end
        end
    end.
Proof.
  unfold load_validated. rewrite validate_config_run; cbn [fst snd].
  rewrite load_body_run; cbn zeta.
  destruct (fs !! _) as [[text|]|]; try reflexivity.
  destruct (json_loads text) as [v|]; [|reflexivity]. cbn [obj_val].
  destruct (check_schema load_schema v) as [[]|e]; [|reflexivity].
  unfold logged; cbn. rewrite <- app_assoc. reflexivity.
Qed.

(** The validated function never touches the cache, ... *)
Lemma load_validated_cache fs self name st r st1 :
  load_validated json_loads fs self name st = (r, st1) ->
  cache st1 = cache st.
Proof.
  rewrite load_validated_run; cbn zeta.
  repeat case_match; intros [= <- <-]; reflexivity.
Qed.

(** ... always starts by asking the file system, and opens the file when
    there is one, ... *)
Lemma load_validated_trace fs self name st r st1 :
  load_validated json_loads fs self name st = (r, st1) ->
  exists t, trace st1 = trace st ++ FsExists (config_path self name) :: t
            /\ (is_Some (fs !! config_path self name) ->
                head t = Some (FsOpen (config_path self name))).
Proof.
  rewrite load_validated_run; cbn zeta.
  repeat case_match; intros [= <- <-]; cbn;
    eexists; (split; [reflexivity|]); try reflexivity.
  intros [? ?]; discriminate.
Qed.

(** ... returns a newly allocated object when it returns, ... *)
Lemma load_validated_fresh fs self name st o st1 :
  load_validated json_loads fs self name st = (Ok o, st1) ->
  obj_id o = next_id st.
Proof.
  rewrite load_validated_run; cbn zeta.
  repeat case_match; intros [= <- <-]; reflexivity.
Qed.

(** ... and fails in the same way whatever the state. *)
Lemma load_validated_raise fs self name st e st1 st' :
  load_validated json_loads fs self name st = (Raise e, st1) ->
  (load_validated json_loads fs self name st').1 = Raise e.
Proof.
  rewrite !load_validated_run; cbn zeta.
  repeat case_match; intros [= <- <-]; reflexivity.
Qed.

(** *** The two paths of the cache *)

Lemma load_hit fs self name st o :
  cache_get (make_key self name) (cache st) = Some o ->
  load json_loads fs self name st =
    (Ok o, {| next_id := next_id st;
              cache := cache_remove (make_key self name) (cache st)
                         ++ [(make_key self name, o)];
              trace := trace st |}).
Proof.
  intros H. unfold load, lru_cache, bind, get_cache, set_cache, ret.
  rewrite H. reflexivity.
Qed.

Lemma load_miss fs self name st :
  cache_get (make_key self name) (cache st) = None ->
  load json_loads fs self name st =
    match load_validated json_loads fs self name st with
    | (Ok o, st1) =>
        (Ok o, {| next_id := next_id st1;
                  cache := if (5 <=? length (cache st))%nat
                           then tail (cache st) ++ [(make_key self name, o)]
                           else cache st ++ [(make_key self name, o)];
                  trace := trace st1 |})
    | (Raise e, st1) => (Raise e, st1)
    end.
Proof.
  intros H. unfold load, lru_cache, bind, get_cache, set_cache, ret.
  rewrite H.
  destruct (load_validated json_loads fs self name st) as [[o|e] st1] eqn:E;
    [|reflexivity].
  apply load_validated_cache in E. rewrite E, H.
  destruct (5 <=? length (cache st))%nat; reflexivity.
Qed.

(** A failing call was a miss, and leaves the cache as it was. *)
Lemma load_raise_miss fs self name st e st' :
  load json_loads fs self name st = (Raise e, st') ->
  cache_get (make_key self name) (cache st) = None
  /\ load_validated json_loads fs self name st = (Raise e, st')
  /\ cache st' = cache st.
Proof.
  intros H.
  destruct (cache_get (make_key self name) (cache st)) as [o|] eqn:E.
  - rewrite (load_hit _ _ _ _ _ E) in H. discriminate.
  - split; [reflexivity|]. rewrite (load_miss _ _ _ _ E) in H.
    destruct (load_validated json_loads fs self name st) as [[o|e'] st1] eqn:E1;
      [discriminate|].
    injection H as -> ->. split; [reflexivity|].
    by apply load_validated_cache in E1.
Qed.

(** After a miss the call has asked the file system. *)
Lemma load_miss_trace fs self name st :
  cache_get (make_key self name) (cache st) = None ->
  exists t,
    trace (load json_loads fs self name st).2
      = trace st ++ FsExists (config_path self name) :: t
    /\ (is_Some (fs !! config_path self name) ->
        head t = Some (FsOpen (config_path self name))).
Proof.
  intros H. rewrite (load_miss _ _ _ _ H).
  destruct (load_validated json_loads fs self name st) as [[o|e] st1] eqn:E;
    apply load_validated_trace in E as (t & Ht & Hopen);
    exists t; split; assumption.
Qed.

(** The keys of the cache after a successful call. *)
Lemma load_ok_keys fs self name st o st' :
  load json_loads fs self name st = (Ok o, st') ->
  cache_keys (cache st')
  = touch (make_key self name) (cache_keys (cache st)).
Proof.
  intros H. unfold touch.
  destruct (cache_get (make_key self name) (cache st)) as [o'|] eqn:E.
  - rewrite (load_hit _ _ _ _ _ E) in H. split_run H. cbn [cache].
    rewrite decide_True by (eapply cache_get_Some; eassumption).
    rewrite cache_keys_app, cache_keys_remove. reflexivity.
  - rewrite (load_miss _ _ _ _ E) in H.
    destruct (load_validated json_loads fs self name st) as [[o1|e] st1];
      [|discriminate].
    split_run H. cbn [cache].
    rewrite decide_False by (by apply cache_get_None).
    assert (Hl : length (cache_keys (cache st)) = length (cache st))
      by apply length_fmap.
    rewrite Hl.
    destruct (5 <=? length (cache st))%nat;
      rewrite cache_keys_app, ?cache_keys_tail; reflexivity.
Qed.

(** After a successful call the name is cached, with the object that was
    returned. *)
Lemma load_ok_cached fs self name st o st' :
  load json_loads fs self name st = (Ok o, st') ->
  cache_get (make_key self name) (cache st') = Some o.
Proof.
  intros H.
  destruct (cache_get (make_key self name) (cache st)) as [o'|] eqn:E.
  - rewrite (load_hit _ _ _ _ _ E) in H. split_run H. cbn [cache].
    apply cache_get_last, cache_get_remove.
  - rewrite (load_miss _ _ _ _ E) in H.
    destruct (load_validated json_loads fs self name st) as [[o1|e] st1];
      [|discriminate].
    split_run H. cbn [cache].
    destruct (5 <=? length (cache st))%nat; apply cache_get_last;
      [|assumption].
    apply cache_get_None. rewrite cache_keys_tail.
    apply cache_get_None in E. intros Hin. apply E.
    destruct (cache_keys (cache st)); [assumption|by right].
Qed.

(** The cache never holds more than five entries, whichever loader is
    used. *)
Lemma load_cache_bound fs self name st r st' :
  (length (cache st) <= 5)%nat ->
  load json_loads fs self name st = (r, st') ->
  (length (cache st') <= 5)%nat.
Proof.
  intros Hlen H. destruct r as [o|e].
  - apply load_ok_keys in H.
    assert (Hk : length (cache_keys (cache st')) = length (cache st'))
      by apply length_fmap.
    rewrite <- Hk, H. apply touch_length.
    unfold cache_keys; by rewrite length_fmap.
  - apply load_raise_miss in H as (_ & _ & ->). assumption.
Qed.

End LoaderFacts.

(** ** Cache hits (C4) *)

(** C4: as long as a name is in the cache, every [load] of it returns the
    cached object itself, whatever the file system has become in the
    meantime: the calls allocate nothing and leave no trace (no file-system
    access, no log entry), and the entry is still cached afterwards. In
    particular a file rewritten or deleted after the first load is not
    looked at again. *)
Theorem load_cached_identity json_loads fss self name st o :
  cache_get (make_key self name) (cache st) = Some o ->
  exists st',
    load_repeat json_loads fss self name st
    = (Ok (replicate (length fss) o), st')
    /\ next_id st' = next_id st
    /\ trace st' = trace st
    /\ cache_get (make_key self name) (cache st') = Some o.
Proof.
  revert st. induction fss as [|fs fss IH]; intros st Hc.
  - exists st. cbn. unfold ret. auto.
  - cbn [load_repeat length replicate]. unfold bind at 1.
    rewrite (load_hit _ _ _ _ _ _ Hc).
    match goal with |- context [bind _ _ ?s] => set (st1 := s) end.
    destruct (IH st1) as (st' & Hrun & Hid & Htr & Hget).
    { apply cache_get_last, cache_get_remove. }
    unfold bind at 1. rewrite Hrun. exists st'. unfold ret. auto.
Qed.

Lemma load_cached_identity_witness :
  (load json_decode demo_fs loader_a "app_config" two_loaders_state).1
  = Ok (Object 2 (VDict app_config))
  /\ demo_fs_modified !! config_path loader_a "app_config"
     = Some (File other_config_text)
  /\ demo_fs_deleted !! config_path loader_a "app_config" = None
  /\ exists st',
       load_repeat json_decode [demo_fs_modified; demo_fs_deleted]
         loader_a "app_config"
         (load json_decode demo_fs loader_a "app_config" two_loaders_state).2
       = (Ok [Object 2 (VDict app_config); Object 2 (VDict app_config)], st')
       /\ next_id st' = 3
       /\ trace st'
          = trace (load json_decode demo_fs loader_a "app_config"
                     two_loaders_state).2
       /\ cache_get (make_key loader_a "app_config") (cache st')
          = Some (Object 2 (VDict app_config)).
Proof.
  split; [vm_compute; reflexivity|].
  split; [vm_compute; reflexivity|].
  split; [vm_compute; reflexivity|].
  apply (load_cached_identity json_decode [demo_fs_modified; demo_fs_deleted]
           loader_a "app_config"
           (load json_decode demo_fs loader_a "app_config" two_loaders_state).2
           (Object 2 (VDict app_config))).
  vm_compute; reflexivity.
Defined.

(** ** Failures are not cached (C6) *)

(** C6: when [load] raises, whatever the exception, the cache is left as it
    was and has no entry for the name; the next [load] of the name therefore
    takes the miss path again: it starts by asking the file system, and with
    an unchanged file system it fails in the same way. *)
Theorem load_failure_not_cached json_loads fs self name st e st' :
  load json_loads fs self name st = (Raise e, st') ->
  cache st' = cache st
  /\ cache_get (make_key self name) (cache st') = None
  /\ (load json_loads fs self name st').1 = Raise e
  /\ (forall fs', exists t,
        trace (load json_loads fs' self name st').2
        = trace st' ++ FsExists (config_path self name) :: t).
Proof.
  intros H. apply load_raise_miss in H as (Hmiss & Hval & Hcache).
  assert (Hmiss' : cache_get (make_key self name) (cache st') = None)
    by (rewrite Hcache; exact Hmiss).
  split; [exact Hcache|]. split; [exact Hmiss'|]. split.
  - rewrite (load_miss _ _ _ _ _ Hmiss').
    pose proof (load_validated_raise _ _ _ _ _ _ _ st' Hval) as Hagain.
    destruct (load_validated json_loads fs self name st') as [[o|e'] st2];
      cbn in *; congruence.
  - intros fs'.
    destruct (load_miss_trace json_loads fs' self name st' Hmiss')
      as (t & Ht & _).
    exists t. exact Ht.
Qed.

Lemma load_failure_not_cached_witness :
  cache (load json_decode demo_fs loader_a "c1" two_loaders_state).2
  = [(make_key loader_a "c1", Object 2 (VDict app_config))]
  /\ cache (load json_decode demo_fs loader_a "bad"
              (load json_decode demo_fs loader_a "c1" two_loaders_state).2).2
     = cache (load json_decode demo_fs loader_a "c1" two_loaders_state).2
  /\ cache_get (make_key loader_a "bad")
       (cache (load json_decode demo_fs loader_a "bad"
                 (load json_decode demo_fs loader_a "c1" two_loaders_state).2).2)
     = None
  /\ (load json_decode demo_fs loader_a "bad"
        (load json_decode demo_fs loader_a "bad"
           (load json_decode demo_fs loader_a "c1" two_loaders_state).2).2).1
     = Raise (MissingKeyError "port")
  /\ (forall fs', exists t,
        trace (load json_decode fs' loader_a "bad"
                 (load json_decode demo_fs loader_a "bad"
                    (load json_decode demo_fs loader_a "c1"
                       two_loaders_state).2).2).2
        = trace (load json_decode demo_fs loader_a "bad"
                   (load json_decode demo_fs loader_a "c1"
                      two_loaders_state).2).2
          ++ FsExists (config_path loader_a "bad") :: t).
Proof.
  split; [vm_compute; reflexivity|].
  apply (load_failure_not_cached json_decode demo_fs loader_a "bad"
           (load json_decode demo_fs loader_a "c1" two_loaders_state).2
           (MissingKeyError "port")).
  vm_compute; reflexivity.
Defined.

(** ** Missing files (C9) *)

(** C9, the claim as stated fails: once [app_config] is cached, deleting its
    file does not make [load] fail; the call is a hit and returns the cached
    object without looking at the file system. *)
Lemma load_deleted_file_counterexample :
  demo_fs_deleted !! config_path loader_a "app_config" = None
  /\ (load json_decode demo_fs_deleted loader_a "app_config"
        (load json_decode demo_fs loader_a "app_config" two_loaders_state).2).1
     = Ok (Object 2 (VDict app_config)).
Proof. split; vm_compute; reflexivity. Qed.

(** C9, as amended: for every configuration name that is not in the cache
    and whose resolved file does not exist, [load] fails with the
    file-not-found error referencing exactly the path obtained by joining
    [config_dir] with [name + ".json"]; it has only asked whether the file
    exists, and the cache is unchanged. *)
Theorem load_missing_file json_loads fs self name st :
  cache_get (make_key self name) (cache st) = None ->
  fs !! os_path_join (config_dir self) (name +:+ ".json") = None ->
  load json_loads fs self name st
  = (Raise (FileNotFoundConfigError
              (os_path_join (config_dir self) (name +:+ ".json"))),
     logged st [FsExists (os_path_join (config_dir self) (name +:+ ".json"))]).
Proof.
  intros Hmiss Hfs. rewrite (load_miss _ _ _ _ _ Hmiss), load_validated_run.
  cbn zeta. unfold config_path. rewrite Hfs. reflexivity.
Qed.

Lemma load_missing_file_witness :
  load json_decode demo_fs loader_a "nonexistent" two_loaders_state
  = (Raise (ConfigError "Configuration file not found: configs/nonexistent.json"),
     logged two_loaders_state [FsExists "configs/nonexistent.json"]).
Proof.
  apply (load_missing_file json_decode demo_fs loader_a "nonexistent"
           two_loaders_state).
  - reflexivity.
  - vm_compute; reflexivity.
Defined.

(** ** Exceptions outside the [ConfigError] family (C2, C10) *)

(** A file that is not valid JSON: the decoder's exception goes through
    [load] as it is. *)
Lemma load_malformed_json json_loads fs self name st text :
  cache_get (make_key self name) (cache st) = None ->
  fs !! config_path self name = Some (File text) ->
  json_loads text = None ->
  load json_loads fs self name st
  = (Raise JSONDecodeError,
     logged st [FsExists (config_path self name);
                FsOpen (config_path self name)]).
Proof.
  intros Hmiss Hfs Hjson.
  rewrite (load_miss _ _ _ _ _ Hmiss), load_validated_run.
  cbn zeta. rewrite Hfs, Hjson. reflexivity.
Qed.

(** C2, what the code does at the failing input: the file
    [configs/broken.json] holds [{not valid json]; [load] raises the
    decoder's [JSONDecodeError], which [except ConfigError] does not catch,
    where the claim has an error of the [ConfigError] family. *)
Theorem load_broken_json_not_config_error :
  demo_fs !! config_path loader_a "broken" = Some (File "{not valid json")
  /\ json_decode "{not valid json" = None
  /\ load json_decode demo_fs loader_a "broken" two_loaders_state
     = (Raise JSONDecodeError,
        logged two_loaders_state
          [FsExists "configs/broken.json"; FsOpen "configs/broken.json"])
  /\ is_ConfigError JSONDecodeError = false.
Proof.
  split; [vm_compute; reflexivity|].
  split; [vm_compute; reflexivity|].
  split; [|reflexivity].
  apply (load_malformed_json json_decode demo_fs loader_a "broken"
           two_loaders_state "{not valid json");
    vm_compute; reflexivity.
Qed.

(** A file whose JSON value is [null], a boolean or a number: the
    membership test of the first schema key raises [TypeError]. *)
Lemma load_scalar_top_level json_loads fs self name st text v :
  cache_get (make_key self name) (cache st) = None ->
  fs !! config_path self name = Some (File text) ->
  json_loads text = Some v ->
  type_of v ∈ [TNoneType; Tbool; Tint; Tfloat] ->
  py_in "host" v = Raise TypeError
  /\ load json_loads fs self name st
     = (Raise TypeError,
        {| next_id := S (next_id st); cache := cache st;
           trace := trace st ++ [FsExists (config_path self name);
                                 FsOpen (config_path self name);
                                 LogLoaded (config_path self name)] |}).
Proof.
  intros Hmiss Hfs Hjson Hty.
  assert (Hin : py_in "host" v = Raise TypeError).
  { destruct v; try reflexivity; exfalso; cbn in Hty;
      repeat (apply elem_of_cons in Hty as [Hty|Hty]; [discriminate|]);
      by apply elem_of_nil in Hty. }
  split; [exact Hin|].
  rewrite (load_miss _ _ _ _ _ Hmiss), load_validated_run.
  cbn zeta. rewrite Hfs, Hjson.
  unfold load_schema. rewrite check_schema_cons.
  unfold check_entry. rewrite Hin. reflexivity.
Qed.

(** C10: with a decoder that reads the text [5] as the integer 5, there is
    an existing file of well-formed JSON whose value is not an object on
    which [load] fails with an exception that is not a [ConfigError]: the
    one raised by the membership test [key in config] of the validator. *)
Theorem load_non_object_escapes json_loads :
  json_loads "5" = Some (VInt 5) ->
  exists fs self name st e st',
    fs !! config_path self name = Some (File "5")
    /\ type_of (VInt 5) <> Tdict
    /\ load json_loads fs self name st = (Raise e, st')
    /\ is_ConfigError e = false
    /\ py_in "host" (VInt 5) = Raise e
    /\ cache st' = cache st.
Proof.
  intros Hjson.
  exists demo_fs, loader_a, "five", two_loaders_state, TypeError.
  destruct (load_scalar_top_level json_loads demo_fs loader_a "five"
              two_loaders_state "5" (VInt 5)) as [Hin Hrun].
  - reflexivity.
  - vm_compute; reflexivity.
  - exact Hjson.
  - apply list_elem_of_In. cbn. tauto.
  - eexists. split; [vm_compute; reflexivity|].
    split; [discriminate|]. split; [exact Hrun|].
    split; [reflexivity|]. split; [exact Hin|reflexivity].
Qed.

Lemma load_non_object_escapes_witness :
  exists fs self name st e st',
    fs !! config_path self name = Some (File "5")
    /\ type_of (VInt 5) <> Tdict
    /\ load json_decode fs self name st = (Raise e, st')
    /\ is_ConfigError e = false
    /\ py_in "host" (VInt 5) = Raise e
    /\ cache st' = cache st.
Proof.
  apply (load_non_object_escapes json_decode).
  vm_compute; reflexivity.
Defined.

(** ** Capacity and eviction (C5, C3) *)

Section Eviction.

Variable json_loads : string -> option value.

Lemma make_key_inj self : Inj (=) (=) (make_key self).
Proof. intros n m [= ->]. reflexivity. Qed.

Lemma load_all_cons fs self name names st objs st' :
  load_all json_loads fs self (name :: names) st = (Ok objs, st') ->
  exists o os st1,
    load json_loads fs self name st = (Ok o, st1)
    /\ load_all json_loads fs self names st1 = (Ok os, st')
    /\ objs = o :: os.
Proof.
  cbn [load_all]. unfold bind, ret.
  destruct (load json_loads fs self name st) as [[o|e] st1]; [|discriminate].
  destruct (load_all json_loads fs self names st1) as [[os|e] st2] eqn:E;
    [|discriminate].
  intros H. split_run H. exists o, os, st1. auto.
Qed.

Lemma load_all_nil fs self st objs st' :
  load_all json_loads fs self [] st = (Ok objs, st') -> st' = st.
Proof. cbn. unfold ret. intros H. by split_run H. Qed.

(** One successful call puts its key behind the most recent keys. *)
Lemma load_ok_suffix fs self name st o st1 pre suf :
  (length (cache st) <= 5)%nat ->
  cache_keys (cache st) = pre ++ suf ->
  make_key self name ∉ suf ->
  (length suf < 5)%nat ->
  load json_loads fs self name st = (Ok o, st1) ->
  (length (cache st1) <= 5)%nat
  /\ exists pre',
       cache_keys (cache st1) = pre' ++ (suf ++ [make_key self name]).
Proof.
  intros Hlen Hks Hk Hsuf Hload.
  split; [eapply load_cache_bound; eassumption|].
  apply load_ok_keys in Hload. rewrite Hload, Hks.
  destruct (touch_suffix (make_key self name) pre suf) as (pre' & Heq & _);
    try assumption.
  - rewrite <- Hks. unfold cache_keys. by rewrite length_fmap.
  - exists pre'. exact Heq.
Qed.

(** The invariant of the cache holds initially, creating a loader does not
    touch the cache, and every [load] preserves the invariant. *)
Lemma cache_ok_initial : cache_ok (cache initial_state).
Proof. split; [cbn; lia|constructor]. Qed.

Lemma ConfigLoader_init_cache dir st r st' :
  ConfigLoader_init dir st = (r, st') -> cache st' = cache st.
Proof. unfold ConfigLoader_init, bind, new_id, ret. by intros [= <- <-]. Qed.

Lemma load_cache_ok fs self name st r st' :
  cache_ok (cache st) ->
  load json_loads fs self name st = (r, st') ->
  cache_ok (cache st').
Proof.
  intros [Hlen Hnd] H. split; [eapply load_cache_bound; eassumption|].
  destruct r as [o|e].
  - rewrite (load_ok_keys _ _ _ _ _ _ _ H). by apply touch_NoDup.
  - apply load_raise_miss in H as (_ & _ & ->). exact Hnd.
Qed.

End Eviction.

(** C5: the cache holds at most five entries and evicts the least recently
    used one. After six distinct names have been loaded successfully through
    one loader, from any state whose cache respects the bound, the cache
    holds exactly the last five of them: the first one has been evicted, and
    a further [load] of it goes to the file system again, asking for the
    file and opening it when it is there, and what it returns is a newly
    built object. *)
Theorem load_six_evicts_first json_loads fs self n1 n2 n3 n4 n5 n6 st objs st' :
  (length (cache st) <= 5)%nat ->
  NoDup [n1; n2; n3; n4; n5; n6] ->
  load_all json_loads fs self [n1; n2; n3; n4; n5; n6] st = (Ok objs, st') ->
  cache_keys (cache st') = make_key self <$> [n2; n3; n4; n5; n6]
  /\ cache_get (make_key self n1) (cache st') = None
  /\ (forall fs', exists t,
        trace (load json_loads fs' self n1 st').2
        = trace st' ++ FsExists (config_path self n1) :: t
        /\ (is_Some (fs' !! config_path self n1) ->
            head t = Some (FsOpen (config_path self n1))))
  /\ (forall fs' o st'',
        load json_loads fs' self n1 st' = (Ok o, st'') ->
        obj_id o = next_id st').
Proof.
  intros Hlen Hnd Hall.
  apply (@NoDup_fmap_2 _ _ (make_key self) (make_key_inj self)) in Hnd.
  cbn [fmap list_fmap] in Hnd.
  apply load_all_cons in Hall as (o1 & os1 & st1 & L1 & Hall & _).
  apply load_all_cons in Hall as (o2 & os2 & st2 & L2 & Hall & _).
  apply load_all_cons in Hall as (o3 & os3 & st3 & L3 & Hall & _).
  apply load_all_cons in Hall as (o4 & os4 & st4 & L4 & Hall & _).
  apply load_all_cons in Hall as (o5 & os5 & st5 & L5 & Hall & _).
  apply load_all_cons in Hall as (o6 & os6 & st6 & L6 & Hall & _).
  apply load_all_nil in Hall as <-.
  set (k1 := make_key self n1) in *. set (k2 := make_key self n2) in *.
  set (k3 := make_key self n3) in *. set (k4 := make_key self n4) in *.
  set (k5 := make_key self n5) in *. set (k6 := make_key self n6) in *.
  apply NoDup_cons in Hnd as [N1 Hnd]. apply NoDup_cons in Hnd as [N2 Hnd].
  apply NoDup_cons in Hnd as [N3 Hnd]. apply NoDup_cons in Hnd as [N4 Hnd].
  apply NoDup_cons in Hnd as [N5 _].
  assert (S1 : k1 ∉ @nil cache_key) by apply not_elem_of_nil.
  split_notin.
  assert (S2 : k2 ∉ [k1]) by solve_notin.
  assert (S3 : k3 ∉ [k1; k2]) by solve_notin.
  assert (S4 : k4 ∉ [k1; k2; k3]) by solve_notin.
  assert (S5 : k5 ∉ [k1; k2; k3; k4]) by solve_notin.
  assert (S6 : k6 ∉ [k1; k2; k3; k4; k5]) by solve_notin.
  destruct (load_ok_suffix json_loads fs self n1 st o1 st1
              (cache_keys (cache st)) [] Hlen (eq_sym (app_nil_r _)) S1
              ltac:(cbn; lia) L1) as (Hlen1 & p1 & K1).
  destruct (load_ok_suffix json_loads fs self n2 st1 o2 st2 p1 [k1] Hlen1 K1
              S2 ltac:(cbn; lia) L2) as (Hlen2 & p2 & K2).
  destruct (load_ok_suffix json_loads fs self n3 st2 o3 st3 p2 [k1; k2] Hlen2
              K2 S3 ltac:(cbn; lia) L3) as (Hlen3 & p3 & K3).
  destruct (load_ok_suffix json_loads fs self n4 st3 o4 st4 p3 [k1; k2; k3]
              Hlen3 K3 S4 ltac:(cbn; lia) L4) as (Hlen4 & p4 & K4).
  destruct (load_ok_suffix json_loads fs self n5 st4 o5 st5 p4
              [k1; k2; k3; k4] Hlen4 K4 S5 ltac:(cbn; lia) L5)
    as (Hlen5 & p5 & K5).
  cbn [app] in K5.
  assert (p5 = []) as ->.
  { assert (Hl : length (cache_keys (cache st5)) = length (cache st5))
      by apply length_fmap.
    rewrite K5, length_app in Hl; cbn in Hl.
    destruct p5; [reflexivity|cbn in Hl; lia]. }
  cbn [app] in K5.
  assert (K6 : cache_keys (cache st') = [k2; k3; k4; k5; k6]).
  { rewrite (load_ok_keys _ _ _ _ _ _ _ L6), K5. fold k6. unfold touch.
    rewrite decide_False by exact S6. reflexivity. }
  assert (Hgone : cache_get k1 (cache st') = None).
  { apply cache_get_None. rewrite K6. solve_notin. }
  split; [exact K6|]. split; [exact Hgone|]. split.
  - intros fs'. apply load_miss_trace. exact Hgone.
  - intros fs' o st'' Hload.
    rewrite (load_miss _ _ _ _ _ Hgone) in Hload.
    destruct (load_validated json_loads fs' self n1 st') as [[o'|e] s] eqn:E;
      [|discriminate].
    apply load_validated_fresh in E. split_run Hload. exact E.
Qed.

Lemma load_six_evicts_first_witness :
  cache_keys
    (cache (load_all json_decode demo_fs loader_a
              ["c1"; "c2"; "c3"; "c4"; "c5"; "c6"] two_loaders_state).2)
  = make_key loader_a <$> ["c2"; "c3"; "c4"; "c5"; "c6"]
  /\ cache_get (make_key loader_a "c1")
       (cache (load_all json_decode demo_fs loader_a
                 ["c1"; "c2"; "c3"; "c4"; "c5"; "c6"] two_loaders_state).2)
     = None
  /\ (forall fs', exists t,
        trace (load json_decode fs' loader_a "c1"
                 (load_all json_decode demo_fs loader_a
                    ["c1"; "c2"; "c3"; "c4"; "c5"; "c6"]
                    two_loaders_state).2).2
        = trace (load_all json_decode demo_fs loader_a
                   ["c1"; "c2"; "c3"; "c4"; "c5"; "c6"] two_loaders_state).2
          ++ FsExists (config_path loader_a "c1") :: t
        /\ (is_Some (fs' !! config_path loader_a "c1") ->
            head t = Some (FsOpen (config_path loader_a "c1"))))
  /\ (forall fs' o st'',
        load json_decode fs' loader_a "c1"
          (load_all json_decode demo_fs loader_a
             ["c1"; "c2"; "c3"; "c4"; "c5"; "c6"] two_loaders_state).2
        = (Ok o, st'') ->
        obj_id o
        = next_id (load_all json_decode demo_fs loader_a
                     ["c1"; "c2"; "c3"; "c4"; "c5"; "c6"]
                     two_loaders_state).2).
Proof.
  apply (load_six_evicts_first json_decode demo_fs loader_a
           "c1" "c2" "c3" "c4" "c5" "c6" two_loaders_state
           ((fun i => Object i (VDict app_config)) <$> [2; 3; 4; 5; 6; 7])).
  - cbn; lia.
  - repeat (constructor; [solve_notin|]). constructor.
  - vm_compute; reflexivity.
Defined.

(** C3, the claim as stated fails: two loaders are created; [a] loads [c1],
    which is cached; [b] then loads five names, and the entry of [a] is
    gone: the next [load] of [c1] through [a] reads the file again. The
    loads made through [b] have evicted an entry cached by [a]. *)
Lemma cache_per_instance_counterexample :
  (a <- ConfigLoader_init "configs" ;;
   b <- ConfigLoader_init "configs" ;;
   ret (a, b)) initial_state
  = (Ok (loader_a, loader_b), two_loaders_state)
  /\ self_id loader_a <> self_id loader_b
  /\ cache_get (make_key loader_a "c1") (cache after_a_c1)
     = Some (Object 2 (VDict app_config))
  /\ cache_keys (cache after_b_five)
     = make_key loader_b <$> ["c1"; "c2"; "c3"; "c4"; "c5"]
  /\ cache_get (make_key loader_a "c1") (cache after_b_five) = None
  /\ load json_decode demo_fs loader_a "c1" after_b_five
     = (Ok (Object 8 (VDict app_config)),
        {| next_id := 9;
           cache := tail (cache after_b_five)
                    ++ [(make_key loader_a "c1", Object 8 (VDict app_config))];
           trace := trace after_b_five
                    ++ [FsExists "configs/c1.json"; FsOpen "configs/c1.json";
                        LogLoaded "configs/c1.json";
                        LogValidated load_schema] |}).
Proof.
  split; [reflexivity|].
  split; [discriminate|].
  repeat split; vm_compute; reflexivity.
Qed.

(** C3, as amended: the cache is not per instance. One cache of capacity
    five belongs to the function [load] and is shared by all the loaders,
    its entries being keyed by the loader's identity and the name. When it
    is full and its least recently used entry was cached by one loader, a
    successful load of an uncached name through a different loader evicts
    that entry, the cache still holding five entries. *)
Theorem load_evicts_across_instances json_loads fs a b n m st oa rest o st' :
  self_id a <> self_id b ->
  cache_ok (cache st) ->
  cache st = (make_key a n, oa) :: rest ->
  length (cache st) = 5 ->
  cache_get (make_key b m) (cache st) = None ->
  load json_loads fs b m st = (Ok o, st') ->
  cache st' = rest ++ [(make_key b m, o)]
  /\ length (cache st') = 5
  /\ cache_get (make_key a n) (cache st') = None
  /\ cache_get (make_key b m) (cache st') = Some o.
Proof.
  intros Hab [_ Hnd] Hc Hlen Hmiss Hload.
  pose proof (load_ok_cached _ _ _ _ _ _ _ Hload) as Hcached.
  rewrite (load_miss _ _ _ _ _ Hmiss) in Hload.
  destruct (load_validated json_loads fs b m st) as [[o'|e] st1];
    [|discriminate].
  rewrite Hlen in Hload. cbn [Nat.leb] in Hload. split_run Hload.
  cbn [cache] in *. rewrite Hc in *. cbn [tail] in *.
  split; [reflexivity|]. split.
  - rewrite length_app; cbn in *. lia.
  - split; [|exact Hcached].
    apply cache_get_None. rewrite cache_keys_app.
    unfold cache_keys in *. rewrite fmap_cons in Hnd; cbn in *.
    apply NoDup_cons in Hnd as [Hn _].
    intros [Hin|Hin]%elem_of_app; [by apply Hn|].
    apply elem_of_cons in Hin as [Heq|Hin]; [|by apply elem_of_nil in Hin].
    unfold make_key in Heq. injection Heq as Hid _. by apply Hab.
Qed.

Lemma load_evicts_across_instances_witness :
  cache after_b_five
  = [(make_key loader_b "c1", Object 3 (VDict app_config));
     (make_key loader_b "c2", Object 4 (VDict app_config));
     (make_key loader_b "c3", Object 5 (VDict app_config));
     (make_key loader_b "c4", Object 6 (VDict app_config))]
    ++ [(make_key loader_b "c5", Object 7 (VDict app_config))]
  /\ length (cache after_b_five) = 5
  /\ cache_get (make_key loader_a "c1") (cache after_b_five) = None
  /\ cache_get (make_key loader_b "c5") (cache after_b_five)
     = Some (Object 7 (VDict app_config)).
Proof.
  apply (load_evicts_across_instances json_decode demo_fs loader_a loader_b
           "c1" "c5" after_b_four (Object 2 (VDict app_config))
           [(make_key loader_b "c1", Object 3 (VDict app_config));
            (make_key loader_b "c2", Object 4 (VDict app_config));
            (make_key loader_b "c3", Object 5 (VDict app_config));
            (make_key loader_b "c4", Object 6 (VDict app_config))]
           (Object 7 (VDict app_config)) after_b_five).
  - discriminate.
  - split; [vm_compute; lia|].
    vm_compute. repeat (constructor; [solve_notin|]). constructor.
  - vm_compute; reflexivity.
  - vm_compute; reflexivity.
  - vm_compute; reflexivity.
  - vm_compute; reflexivity.
Defined.

(** * Further properties of the validator *)

Section ValidatorMore.

Implicit Types (d : gmap string value) (schema : schema_t) (st : state).

(** What one entry can raise. *)
Lemma check_entry_raises config key ty e :
  check_entry config key ty = Raise e ->
  e = TypeError
  \/ e = MissingKeyError key
  \/ exists actual, e = TypeMismatchError key ty actual.
Proof.
  unfold check_entry.
  destruct (py_in key config) as [[|]|e1] eqn:Hin.
  - destruct (py_getitem config key) as [v|e2] eqn:Hget.
    + destruct (isinstance v ty); [discriminate|].
      intros [= <-]. right; right. eauto.
    + intros [= <-]. destruct config; cbn in Hin, Hget; try discriminate;
        try (injection Hget as <-; by left).
      destruct (d !! key) eqn:E; [discriminate|].
      rewrite bool_decide_eq_false_2 in Hin; [discriminate|].
      intros [? ?]; discriminate.
  - intros [= <-]. right; left. reflexivity.
  - intros [= <-]. destruct config; cbn in Hin; try discriminate;
      injection Hin as <-; by left.
Qed.

(** What the loop can raise, and for which entry. *)
Lemma check_schema_raises schema config e :
  check_schema schema config = Raise e ->
  e = TypeError
  \/ exists key ty, (key, ty) ∈ schema
       /\ (e = MissingKeyError key
           \/ exists actual, e = TypeMismatchError key ty actual).
Proof.
  induction schema as [|[key ty] rest IH]; [discriminate|].
  rewrite check_schema_cons.
  destruct (check_entry config key ty) as [[]|e1] eqn:E.
  - intros H. destruct (IH H) as [->|(k & t & Hin & Hcase)]; [by left|].
    right. exists k, t. split; [by right|exact Hcase].
  - intros [= <-]. apply check_entry_raises in E as [->|Hcase]; [by left|].
    right. exists key, ty. split; [by left|exact Hcase].
Qed.

(** On a value that is not a dict, the first entry already fails. *)
Lemma check_entry_non_dict config key ty :
  type_of config <> Tdict ->
  check_entry config key ty =
    match py_in key config with
    | Ok false => Raise (MissingKeyError key)
    | _ => Raise TypeError
    end.
Proof.
  intros Hty. unfold check_entry.
  destruct config; cbn in *; try reflexivity; try congruence;
    match goal with |- context [if ?b then _ else _] => destruct b end;
    reflexivity.
Qed.

End ValidatorMore.

(** X1: on a dict, validation succeeds exactly when every schema key is
    bound to an instance of its expected class; it then returns the object
    it was given. *)
Theorem validate_succeeds_iff schema d i st :
  (exists o st', validate schema (Object i (VDict d)) st = (Ok o, st'))
  <-> Forall (entry_ok d) schema.
Proof.
  rewrite validate_run; cbn [obj_val]. rewrite <- check_schema_ok. split.
  - intros (o & st' & H).
    destruct (check_schema schema (VDict d)) as [[]|e]; [reflexivity|discriminate].
  - intros ->. eauto.
Qed.

(** X2: when every schema entry before [key] is satisfied and [key] is
    bound to a value that is not an instance of the expected class,
    validation fails with the incorrect-type error naming the key, the
    expected class and the class of the value; nothing is logged. *)
Theorem validate_first_type_mismatch pre key ty post d v i st :
  Forall (entry_ok d) pre ->
  d !! key = Some v ->
  isinstance v ty = false ->
  validate (pre ++ (key, ty) :: post) (Object i (VDict d)) st
  = (Raise (TypeMismatchError key ty (type_of v)), st).
Proof.
  intros Hpre Hv Hty. rewrite validate_run; cbn [obj_val].
  rewrite check_schema_skip by assumption.
  rewrite check_schema_cons, check_entry_dict, Hv, Hty. reflexivity.
Qed.

Lemma validate_first_type_mismatch_witness :
  validate ([("host", Tstr)] ++ ("port", Tint) :: [("debug", Tbool)])
    (Object 0 (VDict string_port_config)) initial_state
  = (Raise (ConfigError
       "Incorrect type for port: expected <class 'int'>, got <class 'str'>"),
     initial_state).
Proof.
  apply (validate_first_type_mismatch [("host", Tstr)] "port" Tint
           [("debug", Tbool)] string_port_config (VStr "80") 0 initial_state).
  - constructor; [|constructor].
    exists (VStr "localhost"). split; vm_compute; reflexivity.
  - vm_compute; reflexivity.
  - vm_compute; reflexivity.
Defined.

(** X3: the outcome of the check depends only on what the schema's keys are
    bound to: two dicts that agree on these keys are both accepted, or both
    rejected with the same error, whatever other keys they have. *)
Theorem check_schema_only_schema_keys schema d1 d2 :
  (forall key ty, (key, ty) ∈ schema -> d1 !! key = d2 !! key) ->
  check_schema schema (VDict d1) = check_schema schema (VDict d2).
Proof.
  induction schema as [|[key ty] rest IH]; intros Hagree; [reflexivity|].
  rewrite !check_schema_cons, !check_entry_dict.
  rewrite (Hagree key ty) by (by left).
  rewrite IH; [reflexivity|].
  intros k t Hin. apply (Hagree k t). by right.
Qed.

Lemma check_schema_only_schema_keys_witness :
  check_schema load_schema (VDict extra_key_config)
  = check_schema load_schema (VDict app_config).
Proof.
  apply (check_schema_only_schema_keys load_schema extra_key_config app_config).
  intros key ty Hin.
  apply list_elem_of_In in Hin. cbn in Hin.
  destruct Hin as [[= <- <-]|[[= <- <-]|[[= <- <-]|[]]]];
    vm_compute; reflexivity.
Defined.

(** X4: with a schema that has at least one key, a value that is not a dict
    is never accepted: a string that does not have the first key as a
    substring, or a list that does not have it as an element, gives the
    missing-key error for that key, and in every other case the membership
    test or the indexing raises [TypeError]. *)
Theorem validate_non_mapping key ty rest config :
  type_of config <> Tdict ->
  check_schema ((key, ty) :: rest) config =
    match py_in key config with
    | Ok false => Raise (MissingKeyError key)
    | _ => Raise TypeError
    end.
Proof.
  intros Hty. rewrite check_schema_cons, check_entry_non_dict by assumption.
  destruct (py_in key config) as [[|]|e]; reflexivity.
Qed.

Lemma validate_non_mapping_witness :
  check_schema (("host", Tstr) :: [("port", Tint); ("debug", Tbool)])
    (VStr "example.org") = Raise (MissingKeyError "host")
  /\ check_schema (("host", Tstr) :: [("port", Tint); ("debug", Tbool)])
       (VStr "localhost") = Raise TypeError
  /\ check_schema (("host", Tstr) :: [("port", Tint); ("debug", Tbool)])
       (VList [VStr "port"; VInt 1]) = Raise (MissingKeyError "host")
  /\ check_schema (("host", Tstr) :: [("port", Tint); ("debug", Tbool)])
       VNone = Raise TypeError.
Proof.
  split; [|split; [|split]].
  - etrans; [apply (validate_non_mapping "host" Tstr
                      [("port", Tint); ("debug", Tbool)] (VStr "example.org"));
             discriminate|reflexivity].
  - etrans; [apply (validate_non_mapping "host" Tstr
                      [("port", Tint); ("debug", Tbool)] (VStr "localhost"));
             discriminate|reflexivity].
  - etrans; [apply (validate_non_mapping "host" Tstr
                      [("port", Tint); ("debug", Tbool)]
                      (VList [VStr "port"; VInt 1]));
             discriminate|reflexivity].
  - etrans; [apply (validate_non_mapping "host" Tstr
                      [("port", Tint); ("debug", Tbool)] VNone);
             discriminate|reflexivity].
Defined.

(** On a dict every failure of the loop is a [ConfigError]. *)
Lemma check_schema_dict_raises schema (d : gmap string value) e :
  check_schema schema (VDict d) = Raise e -> is_ConfigError e = true.
Proof.
  induction schema as [|[key ty] rest IH]; [discriminate|].
  rewrite check_schema_cons, check_entry_dict.
  destruct (d !! key) as [v|]; [|by intros [= <-]].
  destruct (isinstance v ty); [exact IH|by intros [= <-]].
Qed.

(** No value but a dict passes a schema that has a key. *)
Lemma check_schema_non_dict_cons key ty rest config :
  type_of config <> Tdict ->
  check_schema ((key, ty) :: rest) config <> Ok tt.
Proof.
  intros Hty. rewrite check_schema_cons, check_entry_non_dict by assumption.
  destruct (py_in key config) as [[|]|e]; discriminate.
Qed.

(** X5: whatever the value and the schema, validation raises nothing but
    the program's own [ConfigError], for a missing or ill-typed key of the
    schema, or [TypeError]; the latter only on a value that is not a dict.
    In particular [config[key]] never raises [KeyError], the membership of
    the key having been tested first. *)
Theorem validate_raises_only schema config e :
  check_schema schema config = Raise e ->
  (e = TypeError /\ type_of config <> Tdict
   \/ exists key ty, (key, ty) ∈ schema
        /\ (e = MissingKeyError key
            \/ exists actual, e = TypeMismatchError key ty actual))
  /\ (forall key, e <> KeyError key).
Proof.
  intros H. pose proof (check_schema_raises _ _ _ H) as Hcases.
  assert (Hfirst :
    e = TypeError /\ type_of config <> Tdict
    \/ exists key ty, (key, ty) ∈ schema
         /\ (e = MissingKeyError key
             \/ exists actual, e = TypeMismatchError key ty actual)).
  { destruct Hcases as [->|Hcase]; [left|by right].
    split; [reflexivity|]. intros Hty.
    destruct config; try discriminate.
    apply check_schema_dict_raises in H. discriminate. }
  split; [exact Hfirst|].
  intros key' ->.
  destruct Hfirst as [[? _]|(k & t & _ & [?|[a ?]])]; discriminate.
Qed.

Lemma validate_raises_only_witness :
  (TypeMismatchError "host" Tstr Tint = TypeError
     /\ type_of (VDict bad_host_config) <> Tdict
   \/ exists key ty, (key, ty) ∈ load_schema
        /\ (TypeMismatchError "host" Tstr Tint = MissingKeyError key
            \/ exists actual,
                 TypeMismatchError "host" Tstr Tint
                 = TypeMismatchError key ty actual))
  /\ (forall key, TypeMismatchError "host" Tstr Tint <> KeyError key).
Proof.
  apply (validate_raises_only load_schema (VDict bad_host_config)
           (TypeMismatchError "host" Tstr Tint)).
  vm_compute; reflexivity.
Defined.

(** X6: whether validation accepts a value does not depend on the order in
    which the schema enumerates its keys (which error is reported does). *)
Theorem validate_order_irrelevant (s1 s2 : schema_t) config :
  s1 ≡ₚ s2 ->
  check_schema s1 config = Ok tt <-> check_schema s2 config = Ok tt.
Proof.
  intros Hperm.
  destruct (decide (type_of config = Tdict)) as [Hd|Hnd].
  - destruct config; try discriminate.
    rewrite !check_schema_ok. by rewrite Hperm.
  - destruct s1 as [|[k1 t1] s1], s2 as [|[k2 t2] s2].
    + reflexivity.
    + by apply Permutation_nil_cons in Hperm.
    + symmetry in Hperm. by apply Permutation_nil_cons in Hperm.
    + split; intros H; exfalso;
        eapply check_schema_non_dict_cons; eassumption.
Qed.

Lemma validate_order_irrelevant_witness :
  check_schema load_schema (VDict app_config) = Ok tt
  <-> check_schema [("debug", Tbool); ("host", Tstr); ("port", Tint)]
        (VDict app_config) = Ok tt.
Proof.
  apply (validate_order_irrelevant load_schema
           [("debug", Tbool); ("host", Tstr); ("port", Tint)]
           (VDict app_config)).
  unfold load_schema.
  apply (Permutation_cons_app [("debug", Tbool)] [("port", Tint)]
           ("host", Tstr)).
  apply (Permutation_cons_app [("debug", Tbool)] [] ("port", Tint)).
  reflexivity.
Defined.

(** X7: the decorated function adds nothing to what the function it wraps
    does but the check and one log entry. It allocates nothing and leaves
    the cache alone; when the wrapped function raises, its exception goes
    through and nothing is logged; when it returns, either the same object
    is returned and the validation is logged, or the check raises and
    nothing is logged. *)
Theorem validate_config_frame {Args : Type} schema (func : Args -> M object)
    args st r st2 :
  validate_config schema func args st = (r, st2) ->
  exists r0 st1,
    func args st = (r0, st1)
    /\ next_id st2 = next_id st1
    /\ cache st2 = cache st1
    /\ match r0 with
       | Raise e => r = Raise e /\ st2 = st1
       | Ok o =>
           r = Ok o /\ trace st2 = trace st1 ++ [LogValidated schema]
           \/ (exists e, r = Raise e /\ check_schema schema (obj_val o) = Raise e)
              /\ st2 = st1
       end.
Proof.
  rewrite validate_config_run.
  destruct (func args st) as [[o|e] st1]; intros H.
  - exists (Ok o), st1.
    destruct (check_schema schema (obj_val o)) as [[]|e] eqn:E; split_run H.
    + repeat split; try reflexivity. left. by split.
    + repeat split; try reflexivity. right. split; [eauto|reflexivity].
  - exists (Raise e), st1. split_run H. repeat split; reflexivity.
Qed.

Lemma validate_config_frame_witness :
  exists r0 st1,
    (fun cfg : object => ret cfg) (Object 0 (VDict bad_host_config))
      initial_state = (r0, st1)
    /\ next_id initial_state = next_id st1
    /\ cache initial_state = cache st1
    /\ match r0 with
       | Raise e =>
           @Raise object (TypeMismatchError "host" Tstr Tint) = Raise e
           /\ initial_state = st1
       | Ok o =>
           @Raise object (TypeMismatchError "host" Tstr Tint) = Ok o
           /\ trace initial_state = trace st1 ++ [LogValidated load_schema]
           \/ (exists e,
                 @Raise object (TypeMismatchError "host" Tstr Tint) = Raise e
                 /\ check_schema load_schema (obj_val o) = Raise e)
              /\ initial_state = st1
       end.
Proof.
  apply (validate_config_frame load_schema (fun cfg : object => ret cfg)
           (Object 0 (VDict bad_host_config)) initial_state
           (Raise (TypeMismatchError "host" Tstr Tint)) initial_state).
  vm_compute; reflexivity.
Defined.

(** * Further properties of [load] *)

Lemma startswith_sep_json name :
  startswith_sep (name +:+ ".json") = startswith_sep name.
Proof. destruct name; reflexivity. Qed.

(** X8: a first load that goes well. When the name is not cached, its file
    exists and decodes to a dict that satisfies the schema, [load] returns a
    newly allocated object holding that dict, having asked for the file,
    opened it, and logged the load and then the validation once each; the
    object is cached as the most recent entry, in place of the oldest one
    when the cache already holds five. *)
Theorem load_cold_success json_loads fs self name st text d :
  cache_get (make_key self name) (cache st) = None ->
  fs !! config_path self name = Some (File text) ->
  json_loads text = Some (VDict d) ->
  Forall (entry_ok d) load_schema ->
  load json_loads fs self name st
  = (Ok (Object (next_id st) (VDict d)),
     {| next_id := S (next_id st);
        cache := if (5 <=? length (cache st))%nat
                 then tail (cache st)
                        ++ [(make_key self name, Object (next_id st) (VDict d))]
                 else cache st
                        ++ [(make_key self name, Object (next_id st) (VDict d))];
        trace := trace st ++ [FsExists (config_path self name);
                              FsOpen (config_path self name);
                              LogLoaded (config_path self name);
                              LogValidated load_schema] |}).
Proof.
  intros Hmiss Hfs Hjson Hok.
  rewrite (load_miss _ _ _ _ _ Hmiss), load_validated_run. cbn zeta.
  rewrite Hfs, Hjson. apply check_schema_ok in Hok. rewrite Hok. reflexivity.
Qed.

Lemma load_cold_success_witness :
  load json_decode demo_fs loader_a "app_config" two_loaders_state
  = (Ok (Object 2 (VDict app_config)),
     {| next_id := 3;
        cache := [(make_key loader_a "app_config", Object 2 (VDict app_config))];
        trace := [FsExists "configs/app_config.json";
                  FsOpen "configs/app_config.json";
                  LogLoaded "configs/app_config.json";
                  LogValidated load_schema] |}).
Proof.
  apply (load_cold_success json_decode demo_fs loader_a "app_config"
           two_loaders_state app_config_text app_config).
  - reflexivity.
  - vm_compute; reflexivity.
  - vm_compute; reflexivity.
  - constructor; [|constructor; [|constructor; [|constructor]]].
    + exists (VStr "localhost"). split; vm_compute; reflexivity.
    + exists (VInt 8080). split; vm_compute; reflexivity.
    + exists (VBool true). split; vm_compute; reflexivity.
Defined.



(** X10: a directory where the file should be. The existence test passes,
    [open] raises [IsADirectoryError], and [load] lets it through: the
    failure is not a [ConfigError], and nothing is cached. *)
Theorem load_directory json_loads fs self name st :
  cache_get (make_key self name) (cache st) = None ->
  fs !! config_path self name = Some Dir ->
  load json_loads fs self name st
  = (Raise (IsADirectoryError (config_path self name)),
     logged st [FsExists (config_path self name);
                FsOpen (config_path self name)])
  /\ is_ConfigError (IsADirectoryError (config_path self name)) = false.
Proof.
  intros Hmiss Hfs. split; [|reflexivity].
  rewrite (load_miss _ _ _ _ _ Hmiss), load_validated_run. cbn zeta.
  rewrite Hfs. reflexivity.
Qed.

Lemma load_directory_witness :
  load json_decode (<["configs/sub.json" := Dir]> demo_fs) loader_a "sub"
    two_loaders_state
  = (Raise (IsADirectoryError (config_path loader_a "sub")),
     logged two_loaders_state [FsExists (config_path loader_a "sub");
                               FsOpen (config_path loader_a "sub")])
  /\ is_ConfigError (IsADirectoryError (config_path loader_a "sub")) = false.
Proof.
  apply (load_directory json_decode (<["configs/sub.json" := Dir]> demo_fs)
           loader_a "sub" two_loaders_state).
  - reflexivity.
  - vm_compute; reflexivity.
Defined.

(** X11: the cache is keyed by the identity of the loader and the name, not
    by [config_dir]: once a name is cached for a loader, the loader returns
    the cached object whatever its [config_dir] has become, without looking
    at the file system. *)
Theorem load_hit_ignores_config_dir json_loads fs self dir name st o :
  cache_get (make_key self name) (cache st) = Some o ->
  exists st',
    load json_loads fs (Loader (self_id self) dir) name st = (Ok o, st')
    /\ trace st' = trace st
    /\ next_id st' = next_id st.
Proof.
  intros Hc.
  assert (Hkey : make_key (Loader (self_id self) dir) name = make_key self name)
    by reflexivity.
  rewrite <- Hkey in Hc. rewrite (load_hit _ _ _ _ _ _ Hc).
  eexists. repeat split; reflexivity.
Qed.

Lemma load_hit_ignores_config_dir_witness :
  exists st',
    load json_decode demo_fs (Loader (self_id loader_a) "elsewhere") "c1"
      after_a_c1
    = (Ok (Object 2 (VDict app_config)), st')
    /\ trace st' = trace after_a_c1
    /\ next_id st' = next_id after_a_c1.
Proof.
  apply (load_hit_ignores_config_dir json_decode demo_fs loader_a "elsewhere"
           "c1" after_a_c1 (Object 2 (VDict app_config))).
  vm_compute; reflexivity.
Defined.

(** X12: a name that starts with a slash is resolved without the
    configuration directory: on a miss, the file [load] asks for is the name
    itself with [.json] appended, whatever [config_dir] is. *)
Theorem load_absolute_name json_loads fs self rest st :
  cache_get (make_key self ("/" +:+ rest)) (cache st) = None ->
  config_path self ("/" +:+ rest) = "/" +:+ rest +:+ ".json"
  /\ exists t,
       trace (load json_loads fs self ("/" +:+ rest) st).2
       = trace st ++ FsExists ("/" +:+ rest +:+ ".json") :: t.
Proof.
  intros Hmiss.
  assert (Hpath : config_path self ("/" +:+ rest) = "/" +:+ rest +:+ ".json")
    by reflexivity.
  split; [exact Hpath|].
  destruct (load_miss_trace json_loads fs self ("/" +:+ rest) st Hmiss)
    as (t & Ht & _).
  exists t. rewrite Ht, Hpath. reflexivity.
Qed.

Lemma load_absolute_name_witness :
  config_path loader_a ("/" +:+ "etc/app") = "/" +:+ "etc/app" +:+ ".json"
  /\ exists t,
       trace (load json_decode demo_fs loader_a ("/" +:+ "etc/app")
                two_loaders_state).2
       = trace two_loaders_state
         ++ FsExists ("/" +:+ "etc/app" +:+ ".json") :: t.
Proof.
  apply (load_absolute_name json_decode demo_fs loader_a "etc/app"
           two_loaders_state).
  reflexivity.
Defined.

(** * Further properties of the cache *)

Section CacheMore.

Implicit Types (c : list (cache_key * object)) (k : cache_key) (o : object).

Lemma key_eqb_ne k1 k2 : k1 <> k2 -> key_eqb k1 k2 = false.
Proof. intros H. unfold key_eqb. by apply bool_decide_eq_false_2. Qed.

Lemma key_eqb_refl k : key_eqb k k = true.
Proof. by apply key_eqb_eq. Qed.

Lemma cache_get_elem k c o : cache_get k c = Some o -> (k, o) ∈ c.
Proof.
  induction c as [|[k' o'] c IH]; [discriminate|].
  rewrite cache_get_cons. destruct (key_eqb k k') eqn:E.
  - apply key_eqb_eq in E as ->. intros [= ->]. by left.
  - intros H. right. by apply IH.
Qed.

Lemma cache_get_remove_ne k k0 c :
  k <> k0 -> cache_get k (cache_remove k0 c) = cache_get k c.
Proof.
  intros Hne. unfold cache_remove.
  induction c as [|[k' o'] c IH]; [reflexivity|].
  rewrite filter_cons; cbn [fst].
  destruct (decide (k' <> k0)) as [Hk|Hk].
  - rewrite !cache_get_cons, IH. reflexivity.
  - rewrite cache_get_cons, IH.
    rewrite key_eqb_ne; [reflexivity|]. intros ->. by apply Hk.
Qed.

Lemma cache_get_snoc_ne k k0 o c :
  k <> k0 -> cache_get k (c ++ [(k0, o)]) = cache_get k c.
Proof.
  intros Hne. rewrite cache_get_app, cache_get_cons, key_eqb_ne by assumption.
  by destruct (cache_get k c).
Qed.

(** With one entry per key, removing the key of the first entry leaves the
    others. *)
Lemma cache_remove_head k o c :
  NoDup (cache_keys ((k, o) :: c)) -> cache_remove k ((k, o) :: c) = c.
Proof.
  unfold cache_keys. rewrite fmap_cons; cbn [fst].
  intros [Hk _]%NoDup_cons. unfold cache_remove.
  rewrite filter_cons; cbn [fst]. rewrite decide_False by (intros H; by apply H).
  induction c as [|[k' o'] c IH]; [reflexivity|].
  rewrite fmap_cons in Hk; cbn [fst] in Hk.
  apply not_elem_of_cons in Hk as [Hne Hk].
  rewrite filter_cons; cbn [fst]. rewrite decide_True by congruence.
  by rewrite IH.
Qed.

Lemma cache_remove_sublist k c : cache_remove k c `sublist_of` c.
Proof. apply sublist_filter. Qed.

End CacheMore.

(** X13: a call of [load] takes at most one entry out of the cache, and
    only the least recently used one, when the cache is full and the call
    was a miss that went well. Every other cached name stays cached, with
    the same object. *)
Theorem load_evicts_only_oldest json_loads fs self name st r st' k o :
  cache_ok (cache st) ->
  load json_loads fs self name st = (r, st') ->
  cache_get k (cache st) = Some o ->
  cache_get k (cache st') = Some o
  \/ (cache_get k (cache st') = None
      /\ length (cache st) = 5
      /\ (exists rest, cache st = (k, o) :: rest)
      /\ cache_get (make_key self name) (cache st) = None
      /\ exists o', r = Ok o').
Proof.
  intros [Hlen Hnd] Hload Hk.
  destruct (cache_get (make_key self name) (cache st)) as [o0|] eqn:Hc.
  - left. rewrite (load_hit _ _ _ _ _ _ Hc) in Hload. split_run Hload.
    cbn [cache]. destruct (decide (k = make_key self name)) as [->|Hne].
    + rewrite Hk in Hc. injection Hc as <-.
      apply cache_get_last, cache_get_remove.
    + rewrite cache_get_snoc_ne, cache_get_remove_ne by assumption. exact Hk.
  - assert (Hne : k <> make_key self name) by (intros ->; congruence).
    rewrite (load_miss _ _ _ _ _ Hc) in Hload.
    destruct (load_validated json_loads fs self name st) as [[o'|e] st1] eqn:E.
    + split_run Hload. cbn [cache].
      destruct (5 <=? length (cache st))%nat eqn:Hfull.
      * apply Nat.leb_le in Hfull. rewrite cache_get_snoc_ne by assumption.
        destruct (cache st) as [|[k1 o1] rest] eqn:Hcache; [discriminate|].
        cbn [tail]. rewrite cache_get_cons in Hk.
        destruct (key_eqb k k1) eqn:Ek.
        -- right. apply key_eqb_eq in Ek as ->. injection Hk as ->.
           unfold cache_keys in Hnd. rewrite fmap_cons in Hnd; cbn [fst] in Hnd.
           apply NoDup_cons in Hnd as [Hn _].
           split; [by apply cache_get_None|].
           split; [cbn [length] in *; lia|].
           split; [by exists rest|]. split; [reflexivity|by exists o'].
        -- by left.
      * left. rewrite cache_get_snoc_ne by assumption. exact Hk.
    + left. split_run Hload. apply load_validated_cache in E.
      rewrite E. exact Hk.
Qed.

Lemma load_evicts_only_oldest_witness :
  cache_get (make_key loader_b "c1") (cache after_b_five)
  = Some (Object 3 (VDict app_config))
  \/ (cache_get (make_key loader_b "c1") (cache after_b_five) = None
      /\ length (cache after_b_four) = 5
      /\ (exists rest,
            cache after_b_four
            = (make_key loader_b "c1", Object 3 (VDict app_config)) :: rest)
      /\ cache_get (make_key loader_b "c5") (cache after_b_four) = None
      /\ exists o', Ok (Object 7 (VDict app_config)) = Ok o').
Proof.
  apply (load_evicts_only_oldest json_decode demo_fs loader_b "c5"
           after_b_four (Ok (Object 7 (VDict app_config))) after_b_five
           (make_key loader_b "c1") (Object 3 (VDict app_config))).
  - split; [vm_compute; lia|].
    vm_compute. repeat (constructor; [solve_notin|]). constructor.
  - vm_compute; reflexivity.
  - vm_compute; reflexivity.
Defined.

(** X14: a hit renews an entry. When the cache is full and the name loaded
    is its least recently used entry, the call is a hit that makes the entry
    the most recent one; the next successful load of a name that is not
    cached then evicts what was the second oldest entry, and the renewed
    one stays. *)
Theorem load_hit_renews json_loads fs fs' self name self' name'
    st o k2 o2 rest r st1 o' st2 :
  cache_ok (cache st) ->
  cache st = (make_key self name, o) :: (k2, o2) :: rest ->
  length (cache st) = 5 ->
  cache_get (make_key self' name') (cache st) = None ->
  load json_loads fs self name st = (r, st1) ->
  load json_loads fs' self' name' st1 = (Ok o', st2) ->
  r = Ok o
  /\ cache st2
     = rest ++ [(make_key self name, o)] ++ [(make_key self' name', o')]
  /\ cache_get (make_key self name) (cache st2) = Some o
  /\ cache_get k2 (cache st2) = None.
Proof.
  intros [_ Hnd] Hc Hlen Hnew H1 H2.
  assert (Hhit : cache_get (make_key self name) (cache st) = Some o).
  { rewrite Hc, cache_get_cons, key_eqb_refl. reflexivity. }
  rewrite (load_hit _ _ _ _ _ _ Hhit) in H1. split_run H1.
  rewrite Hc in Hnd, Hlen, Hnew.
  rewrite Hc, (cache_remove_head _ _ _ Hnd) in H2.
  unfold cache_keys in Hnd. rewrite !fmap_cons in Hnd; cbn [fst] in Hnd.
  apply NoDup_cons in Hnd as [Hn1 Hnd]. apply NoDup_cons in Hnd as [Hn2 _].
  apply not_elem_of_cons in Hn1 as [Hne12 Hn1].
  rewrite !cache_get_cons in Hnew.
  destruct (key_eqb (make_key self' name') (make_key self name)) eqn:E1;
    [discriminate|].
  destruct (key_eqb (make_key self' name') k2) eqn:E2; [discriminate|].
  assert (Hne1 : make_key self' name' <> make_key self name).
  { intros Heq. apply key_eqb_eq in Heq. congruence. }
  assert (Hne2 : make_key self' name' <> k2).
  { intros Heq. apply key_eqb_eq in Heq. congruence. }
  match type of H2 with load _ _ _ _ ?s = _ => set (st1 := s) in * end.
  assert (Hmiss : cache_get (make_key self' name') (cache st1) = None).
  { cbn [cache st1]. rewrite cache_get_snoc_ne by assumption.
    rewrite cache_get_cons, E2. exact Hnew. }
  rewrite (load_miss _ _ _ _ _ Hmiss) in H2.
  destruct (load_validated json_loads fs' self' name' st1) as [[o1|e] s1];
    [|discriminate].
  assert (Hfull : (5 <=? length (cache st1))%nat = true).
  { apply Nat.leb_le. cbn [cache st1]. rewrite length_app.
    cbn [length] in *. lia. }
  rewrite Hfull in H2. split_run H2. cbn [cache st1 tail app].
  split; [reflexivity|]. split; [by rewrite <- app_assoc|].
  split.
  - rewrite cache_get_snoc_ne by congruence.
    apply cache_get_last. by apply cache_get_None.
  - rewrite cache_get_snoc_ne by congruence.
    rewrite cache_get_snoc_ne by congruence. by apply cache_get_None.
Qed.

Lemma load_hit_renews_witness :
  Ok (Object 2 (VDict app_config)) = Ok (Object 2 (VDict app_config))
  /\ cache (load json_decode demo_fs loader_a "c6" after_a_refresh).2
     = [(make_key loader_a "c3", Object 4 (VDict app_config));
        (make_key loader_a "c4", Object 5 (VDict app_config));
        (make_key loader_a "c5", Object 6 (VDict app_config))]
       ++ [(make_key loader_a "c1", Object 2 (VDict app_config))]
       ++ [(make_key loader_a "c6", Object 7 (VDict app_config))]
  /\ cache_get (make_key loader_a "c1")
       (cache (load json_decode demo_fs loader_a "c6" after_a_refresh).2)
     = Some (Object 2 (VDict app_config))
  /\ cache_get (make_key loader_a "c2")
       (cache (load json_decode demo_fs loader_a "c6" after_a_refresh).2)
     = None.
Proof.
  apply (load_hit_renews json_decode demo_fs demo_fs loader_a "c1" loader_a
           "c6" after_a_five (Object 2 (VDict app_config))
           (make_key loader_a "c2") (Object 3 (VDict app_config))
           [(make_key loader_a "c3", Object 4 (VDict app_config));
            (make_key loader_a "c4", Object 5 (VDict app_config));
            (make_key loader_a "c5", Object 6 (VDict app_config))]
           (Ok (Object 2 (VDict app_config))) after_a_refresh
           (Object 7 (VDict app_config))
           (load json_decode demo_fs loader_a "c6" after_a_refresh).2).
  - split; [vm_compute; lia|].
    vm_compute. repeat (constructor; [solve_notin|]). constructor.
  - vm_compute; reflexivity.
  - vm_compute; reflexivity.
  - vm_compute; reflexivity.
  - vm_compute; reflexivity.
  - vm_compute; reflexivity.
Defined.

(** * Invariants of the states a client can reach *)

Section Reachable.

Variable json_loads : string -> option value.

Lemma Forall_sublist {A} (P : A -> Prop) (l1 l2 : list A) :
  Forall P l2 -> l1 `sublist_of` l2 -> Forall P l1.
Proof.
  rewrite !Forall_forall. intros H Hsub x Hx.
  apply H. eapply elem_of_sublist; eassumption.
Qed.

(** What the validated function returns satisfies the schema: only a dict
    passes the check of [load_schema]. *)
Lemma load_validated_valid fs self name st o st1 :
  load_validated json_loads fs self name st = (Ok o, st1) -> valid_config o.
Proof.
  rewrite load_validated_run. cbn zeta.
  destruct (fs !! config_path self name) as [[text|]|]; try discriminate.
  destruct (json_loads text) as [v|]; [|discriminate].
  destruct (check_schema load_schema v) as [[]|e] eqn:Hc; [|discriminate].
  intros H. split_run H.
  destruct (decide (type_of v = Tdict)) as [Hd|Hnd].
  - destruct v; try discriminate. exists d. split; [reflexivity|].
    by apply check_schema_ok.
  - exfalso. revert Hc. unfold load_schema.
    by apply check_schema_non_dict_cons.
Qed.

(** One call keeps every cached object valid, and returns a valid one. *)
Lemma load_step_valid fs self name st r st' :
  cache_valid (cache st) ->
  load json_loads fs self name st = (r, st') ->
  cache_valid (cache st') /\ (forall o, r = Ok o -> valid_config o).
Proof.
  unfold cache_valid. intros Hv H.
  destruct (cache_get (make_key self name) (cache st)) as [o0|] eqn:Hc.
  - rewrite (load_hit _ _ _ _ _ _ Hc) in H. split_run H. cbn [cache].
    assert (Ho : valid_config o0).
    { apply cache_get_elem in Hc.
      rewrite Forall_forall in Hv. apply (Hv _ Hc). }
    split; [|by intros o [= <-]].
    apply Forall_app. split.
    + eapply Forall_sublist; [exact Hv|apply cache_remove_sublist].
    + by constructor.
  - rewrite (load_miss _ _ _ _ _ Hc) in H.
    destruct (load_validated json_loads fs self name st) as [[o1|e] st1] eqn:E.
    + apply load_validated_valid in E. split_run H. cbn [cache].
      split; [|by intros o [= <-]].
      destruct (5 <=? length (cache st))%nat; apply Forall_app;
        (split; [|by constructor]); [|exact Hv].
      destruct (cache st); [constructor|]. by apply Forall_cons in Hv as [_ ?].
    + apply load_validated_cache in E. split_run H.
      rewrite E. split; [exact Hv|discriminate].
Qed.

Lemma cache_ids_app c1 c2 : cache_ids (c1 ++ c2) = cache_ids c1 ++ cache_ids c2.
Proof. unfold cache_ids. apply fmap_app. Qed.

Lemma cache_ids_sublist c1 c2 :
  c1 `sublist_of` c2 -> cache_ids c1 `sublist_of` cache_ids c2.
Proof. unfold cache_ids. apply fmap_sublist. Qed.

(** Taking a cached entry out leaves the other identities, none of which is
    that of the entry. *)
Lemma cache_remove_ids k c o :
  NoDup (cache_ids c) ->
  cache_get k c = Some o ->
  obj_id o ∉ cache_ids (cache_remove k c).
Proof.
  induction c as [|[k' o'] c IH]; [discriminate|].
  unfold cache_ids in *. rewrite fmap_cons; cbn [snd].
  intros [Hn Hnd]%NoDup_cons. rewrite cache_get_cons.
  unfold cache_remove. rewrite filter_cons; cbn [fst].
  destruct (key_eqb k k') eqn:E.
  - apply key_eqb_eq in E as ->. intros [= ->].
    rewrite decide_False by (intros H; by apply H).
    intros Hin. apply Hn.
    eapply elem_of_sublist; [exact Hin|].
    apply fmap_sublist, sublist_filter.
  - intros Hget. rewrite decide_True.
    + rewrite fmap_cons; cbn [snd]. apply not_elem_of_cons. split.
      * intros Heq. apply Hn. rewrite <- Heq.
        apply cache_get_elem in Hget.
        apply (list_elem_of_fmap_2 (fun e : cache_key * object => obj_id e.2))
          in Hget. exact Hget.
      * by apply IH.
    + intros ->. unfold key_eqb in E.
      rewrite bool_decide_eq_true_2 in E; done.
Qed.

(** One call keeps the identities of the cached objects distinct and below
    the allocation counter. *)
Lemma load_step_ids fs self name st r st' :
  ids_fresh st ->
  load json_loads fs self name st = (r, st') ->
  ids_fresh st' /\ (next_id st <= next_id st')%nat.
Proof.
  unfold ids_fresh. intros [Hlt Hnd] H.
  destruct (cache_get (make_key self name) (cache st)) as [o0|] eqn:Hc.
  - rewrite (load_hit _ _ _ _ _ _ Hc) in H. split_run H.
    cbn [cache next_id]. split; [|lia].
    rewrite cache_ids_app.
    assert (Hsub : cache_ids (cache_remove (make_key self name) (cache st))
                   `sublist_of` cache_ids (cache st))
      by apply cache_ids_sublist, cache_remove_sublist.
    split.
    + apply Forall_app. split; [by eapply Forall_sublist|].
      constructor; [|constructor].
      apply cache_get_elem in Hc.
      apply (list_elem_of_fmap_2 (fun e : cache_key * object => obj_id e.2))
        in Hc.
      rewrite Forall_forall in Hlt. apply (Hlt _ Hc).
    + apply NoDup_app. split; [by eapply sublist_NoDup|]. split.
      * intros x Hx [->|[]%elem_of_nil]%elem_of_cons. revert Hx.
        by apply cache_remove_ids.
      * apply NoDup_singleton.
  - rewrite (load_miss _ _ _ _ _ Hc) in H.
    destruct (load_validated json_loads fs self name st) as [[o1|e] st1] eqn:E.
    + pose proof (load_validated_fresh _ _ _ _ _ _ _ E) as Hid.
      rewrite load_validated_run in E. cbn zeta in E.
      assert (Hnext : next_id st1 = S (next_id st)).
      { repeat case_match; try discriminate; by split_run E. }
      split_run H. cbn [cache next_id]. rewrite Hnext. split; [|lia].
      assert (Hsub : forall c, c `sublist_of` cache st ->
                Forall (fun i => (i < S (next_id st))%nat)
                  (cache_ids (c ++ [(make_key self name, o1)]))
                /\ NoDup (cache_ids (c ++ [(make_key self name, o1)]))).
      { intros c Hc'. apply cache_ids_sublist in Hc'.
        rewrite cache_ids_app. split.
        - apply Forall_app. split.
          + eapply Forall_impl; [by eapply Forall_sublist|].
            cbn. intros; lia.
          + constructor; [cbn; lia|constructor].
        - apply NoDup_app. split; [by eapply sublist_NoDup|]. split.
          + intros x Hx [->|[]%elem_of_nil]%elem_of_cons. cbn in Hx.
            eapply elem_of_sublist in Hx; [|exact Hc'].
            rewrite Forall_forall in Hlt. specialize (Hlt _ Hx). lia.
          + apply NoDup_singleton. }
      destruct (5 <=? length (cache st))%nat; apply Hsub; [|reflexivity].
      destruct (cache st); [reflexivity|]. by apply sublist_cons.
    + apply load_validated_cache in E as Hcache.
      rewrite load_validated_run in E. cbn zeta in E.
      assert (Hnext : (next_id st <= next_id st1)%nat).
      { repeat case_match; try discriminate; split_run E; cbn; lia. }
      split_run H. rewrite Hcache. split; [|exact Hnext].
      split; [|exact Hnd].
      eapply Forall_impl; [exact Hlt|]. cbn. intros; lia.
Qed.

End Reachable.

(** The three invariants together, along any series of operations. *)
Lemma run_ops_invariant json_loads ops st :
  cache_ok (cache st) /\ cache_valid (cache st) /\ ids_fresh st ->
  cache_ok (cache (run_ops json_loads ops st))
  /\ cache_valid (cache (run_ops json_loads ops st))
  /\ ids_fresh (run_ops json_loads ops st).
Proof.
  revert st. induction ops as [|[dir|fs self name] ops IH]; intros st Hinv.
  - exact Hinv.
  - cbn [run_ops]. apply IH.
    destruct Hinv as (Hok & Hv & Hlt & Hnd).
    unfold ConfigLoader_init, bind, new_id, ret, ids_fresh; cbn.
    repeat split; try assumption; try apply Hok.
    eapply Forall_impl; [exact Hlt|]. cbn. intros; lia.
  - cbn [run_ops]. apply IH.
    destruct Hinv as (Hok & Hv & Hids).
    destruct (load json_loads fs self name st) as [r st'] eqn:E. cbn [snd].
    split; [eapply load_cache_ok; eassumption|].
    split; [eapply load_step_valid; eassumption|].
    eapply load_step_ids; eassumption.
Qed.

Lemma initial_state_invariant :
  cache_ok (cache initial_state) /\ cache_valid (cache initial_state)
  /\ ids_fresh initial_state.
Proof.
  split; [apply cache_ok_initial|]. split; [constructor|].
  split; constructor.
Qed.


(** X16: whatever a client did before, an object that [load] returns, from
    the file or from the cache, is a dict in which [host] is bound to a
    [str], [port] to an [int] (or a [bool]) and [debug] to a [bool]. *)
Theorem reachable_load_returns_valid json_loads ops fs self name o st' :
  load json_loads fs self name (run_ops json_loads ops initial_state)
  = (Ok o, st') ->
  exists d h p b,
    obj_val o = VDict d
    /\ d !! "host" = Some (VStr h)
    /\ (d !! "port" = Some (VInt p)
        \/ exists pb, d !! "port" = Some (VBool pb))
    /\ d !! "debug" = Some (VBool b).
Proof.
  intros H.
  destruct (run_ops_invariant json_loads ops initial_state
              initial_state_invariant) as (_ & Hv & _).
  destruct (load_step_valid _ _ _ _ _ _ _ Hv H) as [_ Hvalid].
  destruct (Hvalid o eq_refl) as (d & Hd & Hall).
  unfold load_schema in Hall.
  apply Forall_cons in Hall as [(vh & Hh & Hth) Hall].
  apply Forall_cons in Hall as [(vp & Hp & Htp) Hall].
  apply Forall_cons in Hall as [(vb & Hb & Htb) _].
  cbn [fst snd] in *.
  destruct vh; try discriminate. destruct vb; try discriminate.
  destruct vp; try discriminate.
  - exists d, s, 0%Z, b. repeat split; eauto.
  - exists d, s, z, b. repeat split; eauto.
Qed.

Lemma reachable_load_returns_valid_witness :
  exists d h p b,
    obj_val (Object 3 (VDict app_config)) = VDict d
    /\ d !! "host" = Some (VStr h)
    /\ (d !! "port" = Some (VInt p)
        \/ exists pb, d !! "port" = Some (VBool pb))
    /\ d !! "debug" = Some (VBool b).
Proof.
  apply (reachable_load_returns_valid json_decode
           [NewLoader "configs"; NewLoader "configs";
            Load demo_fs loader_a "broken"; Load demo_fs loader_a "c1"]
           demo_fs loader_b "c1" (Object 3 (VDict app_config))
           (load json_decode demo_fs loader_b "c1"
              (run_ops json_decode
                 [NewLoader "configs"; NewLoader "configs";
                  Load demo_fs loader_a "broken"; Load demo_fs loader_a "c1"]
                 initial_state)).2).
  vm_compute; reflexivity.
Defined.

(** * Properties of the script *)

Section ScriptFacts.

Variable json_loads : string -> option value.

(** The script, in terms of its two calls of [load]. *)
Lemma main_run fs1 fs2 :
  main json_loads fs1 fs2 fresh_process =
    match load json_loads fs1 script_loader "app_config" script_start with
    | (Ok o1, st1) =>
        match load json_loads fs2 script_loader "app_config" st1 with
        | (Ok o2, st2) =>
            (Ok tt, {| lib_state := st2;
                       console := [InfoAppConfiguration o1;
                                   InfoCachedConfiguration o2] |})
        | (Raise (ConfigError msg), st2) =>
            (Ok tt, {| lib_state := st2;
                       console := [InfoAppConfiguration o1;
                                   LogError ("Configuration error: " +:+ msg)] |})
        | (Raise e, st2) =>
            (Raise e, {| lib_state := st2;
                         console := [InfoAppConfiguration o1] |})
        end
    | (Raise (ConfigError msg), st1) =>
        (Ok tt, {| lib_state := st1;
                   console := [LogError ("Configuration error: " +:+ msg)] |})
    | (Raise e, st1) => (Raise e, {| lib_state := st1; console := [] |})
    end.
Proof.
  unfold main, script_bind, try_except_ConfigError, call_lib, script_logging.
  cbn [ConfigLoader_init bind new_id ret fresh_process initial_state
       lib_state console next_id cache trace].
  fold script_loader. fold script_start.
  destruct (load json_loads fs1 script_loader "app_config" script_start)
    as [[o1|e1] st1]; cbn [lib_state console app].
  - destruct (load json_loads fs2 script_loader "app_config" st1)
      as [[o2|e2] st2]; cbn [lib_state console app]; [reflexivity|].
    destruct e2; reflexivity.
  - destruct e1; reflexivity.
Qed.

(** The second call of the script is a hit. *)
Lemma main_second_call fs1 fs2 o1 st1 :
  load json_loads fs1 script_loader "app_config" script_start = (Ok o1, st1) ->
  exists st2,
    load json_loads fs2 script_loader "app_config" st1 = (Ok o1, st2)
    /\ trace st2 = trace st1 /\ next_id st2 = next_id st1
    /\ cache_keys (cache st2) = [make_key script_loader "app_config"].
Proof.
  intros H1. pose proof (load_ok_cached _ _ _ _ _ _ _ H1) as Hc.
  pose proof (load_ok_keys _ _ _ _ _ _ _ H1) as Hk.
  rewrite (load_hit _ _ _ _ _ _ Hc). eexists. split; [reflexivity|].
  cbn [trace next_id cache]. repeat split.
  rewrite cache_keys_app, cache_keys_remove, Hk. reflexivity.
Qed.

End ScriptFacts.

(** X17: the script on a valid configuration. When
    [configs/app_config.json] exists at the first call and decodes to a
    dict that satisfies the schema, the script ends normally; the file is
    asked for and opened once, the load and the validation are logged once;
    the second call returns the very object of the first whatever the file
    system is by then, and the script logs that object twice. *)
Theorem main_valid_config json_loads fs1 fs2 text d :
  fs1 !! "configs/app_config.json" = Some (File text) ->
  json_loads text = Some (VDict d) ->
  Forall (entry_ok d) load_schema ->
  main json_loads fs1 fs2 fresh_process
  = (Ok tt,
     {| lib_state :=
          {| next_id := 2;
             cache := [(make_key script_loader "app_config",
                        Object 1 (VDict d))];
             trace := [FsExists "configs/app_config.json";
                       FsOpen "configs/app_config.json";
                       LogLoaded "configs/app_config.json";
                       LogValidated load_schema] |};
        console := [InfoAppConfiguration (Object 1 (VDict d));
                    InfoCachedConfiguration (Object 1 (VDict d))] |}).
Proof.
  intros Hfs Hjson Hok. rewrite main_run.
  assert (H1 : load json_loads fs1 script_loader "app_config" script_start
               = (Ok (Object 1 (VDict d)),
                  {| next_id := 2;
                     cache := [(make_key script_loader "app_config",
                                Object 1 (VDict d))];
                     trace := [FsExists "configs/app_config.json";
                               FsOpen "configs/app_config.json";
                               LogLoaded "configs/app_config.json";
                               LogValidated load_schema] |})).
  { rewrite load_miss by reflexivity. rewrite load_validated_run. cbn zeta.
    change (config_path script_loader "app_config")
      with "configs/app_config.json".
    rewrite Hfs, Hjson. apply check_schema_ok in Hok. rewrite Hok.
    reflexivity. }
  rewrite H1.
  rewrite (load_hit json_loads fs2 script_loader "app_config" _
             (Object 1 (VDict d))) by reflexivity.
  reflexivity.
Qed.

Lemma main_valid_config_witness :
  main json_decode demo_fs demo_fs_deleted fresh_process
  = (Ok tt,
     {| lib_state :=
          {| next_id := 2;
             cache := [(make_key script_loader "app_config",
                        Object 1 (VDict app_config))];
             trace := [FsExists "configs/app_config.json";
                       FsOpen "configs/app_config.json";
                       LogLoaded "configs/app_config.json";
                       LogValidated load_schema] |};
        console := [InfoAppConfiguration (Object 1 (VDict app_config));
                    InfoCachedConfiguration (Object 1 (VDict app_config))] |}).
Proof.
  apply (main_valid_config json_decode demo_fs demo_fs_deleted
           app_config_text app_config).
  - vm_compute; reflexivity.
  - vm_compute; reflexivity.
  - constructor; [|constructor; [|constructor; [|constructor]]].
    + exists (VStr "localhost"). split; vm_compute; reflexivity.
    + exists (VInt 8080). split; vm_compute; reflexivity.
    + exists (VBool true). split; vm_compute; reflexivity.
Defined.

(** X18: the script catches the program's own errors. When the first call
    of [load] raises a [ConfigError], the script logs one error entry made
    of [Configuration error: ] and the message, does not call [load] again,
    and ends normally. *)
Theorem main_logs_config_error json_loads fs1 fs2 msg st1 :
  load json_loads fs1 script_loader "app_config" script_start
  = (Raise (ConfigError msg), st1) ->
  main json_loads fs1 fs2 fresh_process
  = (Ok tt, {| lib_state := st1;
               console := [LogError ("Configuration error: " +:+ msg)] |}).
Proof. intros H. rewrite main_run, H. reflexivity. Qed.

Lemma main_logs_config_error_witness :
  main json_decode ∅ demo_fs fresh_process
  = (Ok tt,
     {| lib_state := logged script_start [FsExists "configs/app_config.json"];
        console :=
          [LogError ("Configuration error: "
                       +:+ "Configuration file not found: configs/app_config.json")]
     |}).
Proof.
  apply (main_logs_config_error json_decode ∅ demo_fs
           "Configuration file not found: configs/app_config.json"
           (logged script_start [FsExists "configs/app_config.json"])).
  vm_compute; reflexivity.
Defined.

(** X19: what the script lets through. The script never ends with a
    [ConfigError]. When it ends with an exception, this is an exception
    outside the [ConfigError] family raised by the first call of [load],
    such as the decoder's on a malformed file, and the script has logged
    nothing: the second call, a hit, cannot fail. *)
Theorem main_uncaught json_loads fs1 fs2 e s :
  main json_loads fs1 fs2 fresh_process = (Raise e, s) ->
  is_ConfigError e = false
  /\ console s = []
  /\ load json_loads fs1 script_loader "app_config" script_start
     = (Raise e, lib_state s).
Proof.
  rewrite main_run.
  destruct (load json_loads fs1 script_loader "app_config" script_start)
    as [[o1|e1] st1] eqn:H1.
  - destruct (main_second_call json_loads fs1 fs2 o1 st1 H1)
      as (st2 & H2 & _).
    rewrite H2. discriminate.
  - destruct e1; intros H; try discriminate; split_run H; cbn; auto.
Qed.

Lemma main_uncaught_witness :
  is_ConfigError JSONDecodeError = false
  /\ console
       {| lib_state :=
            logged script_start [FsExists "configs/app_config.json";
                                 FsOpen "configs/app_config.json"];
          console := [] |} = []
  /\ load json_decode
       (<["configs/app_config.json" := File "{not valid json"]> ∅)
       script_loader "app_config" script_start
     = (Raise JSONDecodeError,
        lib_state
          {| lib_state :=
               logged script_start [FsExists "configs/app_config.json";
                                    FsOpen "configs/app_config.json"];
             console := [] |}).
Proof.
  apply (main_uncaught json_decode
           (<["configs/app_config.json" := File "{not valid json"]> ∅)
           demo_fs JSONDecodeError
           {| lib_state :=
                logged script_start [FsExists "configs/app_config.json";
                                     FsOpen "configs/app_config.json"];
              console := [] |}).
  vm_compute; reflexivity.
Defined.

(** * Loaders side by side, and retrying *)

(** X20: entries are not served across loaders. In a state where every
    cached entry belongs to one loader, a call through another loader is a
    miss whatever the name: it asks the file system for its own file, and
    what it returns is a newly allocated object, never one cached by the
    first loader. *)
Theorem load_not_shared_across_loaders json_loads fs a b name st r st' :
  self_id a <> self_id b ->
  (forall k, k ∈ cache_keys (cache st) -> k.1 = self_id a) ->
  load json_loads fs b name st = (r, st') ->
  (exists t, trace st' = trace st ++ FsExists (config_path b name) :: t)
  /\ (forall o, r = Ok o -> obj_id o = next_id st).
Proof.
  intros Hab Hkeys Hload.
  assert (Hmiss : cache_get (make_key b name) (cache st) = None).
  { apply cache_get_None. intros Hin. apply Hkeys in Hin. cbn in Hin.
    by apply Hab. }
  split.
  - destruct (load_miss_trace json_loads fs b name st Hmiss) as (t & Ht & _).
    rewrite Hload in Ht. by exists t.
  - intros o ->. rewrite (load_miss _ _ _ _ _ Hmiss) in Hload.
    destruct (load_validated json_loads fs b name st) as [[o'|e] s] eqn:E;
      [|discriminate].
    apply load_validated_fresh in E. split_run Hload. exact E.
Qed.

Lemma load_not_shared_across_loaders_witness :
  (exists t,
     trace (load json_decode demo_fs loader_b "c1" after_a_c1).2
     = trace after_a_c1 ++ FsExists (config_path loader_b "c1") :: t)
  /\ (forall o,
        Ok (Object 3 (VDict app_config)) = Ok o ->
        obj_id o = next_id after_a_c1).
Proof.
  apply (load_not_shared_across_loaders json_decode demo_fs loader_a loader_b
           "c1" after_a_c1 (Ok (Object 3 (VDict app_config)))
           (load json_decode demo_fs loader_b "c1" after_a_c1).2).
  - discriminate.
  - intros k Hin. vm_compute in Hin.
    apply elem_of_cons in Hin as [->|Hin]; [reflexivity|].
    by apply elem_of_nil in Hin.
  - vm_compute; reflexivity.
Defined.

(** X21: a failed load can be retried. After a call of [load] that raised,
    once the file is there and decodes to a dict that satisfies the schema,
    the next call for the same name succeeds with a new object holding that
    dict, and caches it. *)
Theorem load_retry_after_failure json_loads fs1 fs2 self name st e st1 text d :
  load json_loads fs1 self name st = (Raise e, st1) ->
  fs2 !! config_path self name = Some (File text) ->
  json_loads text = Some (VDict d) ->
  Forall (entry_ok d) load_schema ->
  exists st2,
    load json_loads fs2 self name st1
    = (Ok (Object (next_id st1) (VDict d)), st2)
    /\ cache_get (make_key self name) (cache st2)
       = Some (Object (next_id st1) (VDict d)).
Proof.
  intros Hfail Hfs Hjson Hok.
  apply load_raise_miss in Hfail as (Hmiss & _ & Hcache).
  rewrite <- Hcache in Hmiss.
  destruct (load json_loads fs2 self name st1) as [r st2] eqn:Hload.
  exists st2.
  assert (Hr : r = Ok (Object (next_id st1) (VDict d))).
  { rewrite (load_miss _ _ _ _ _ Hmiss), load_validated_run in Hload.
    cbn zeta in Hload. rewrite Hfs, Hjson in Hload.
    apply check_schema_ok in Hok. rewrite Hok in Hload.
    by split_run Hload. }
  subst r. split; [reflexivity|].
  eapply load_ok_cached. exact Hload.
Qed.

Lemma load_retry_after_failure_witness :
  exists st2,
    load json_decode (<["configs/broken.json" := File app_config_text]> demo_fs)
      loader_a "broken"
      (load json_decode demo_fs loader_a "broken" two_loaders_state).2
    = (Ok (Object
             (next_id (load json_decode demo_fs loader_a "broken"
                         two_loaders_state).2)
             (VDict app_config)), st2)
    /\ cache_get (make_key loader_a "broken") (cache st2)
       = Some (Object
                 (next_id (load json_decode demo_fs loader_a "broken"
                             two_loaders_state).2)
                 (VDict app_config)).
Proof.
  apply (load_retry_after_failure json_decode demo_fs
           (<["configs/broken.json" := File app_config_text]> demo_fs)
           loader_a "broken" two_loaders_state JSONDecodeError
           (load json_decode demo_fs loader_a "broken" two_loaders_state).2
           app_config_text app_config).
  - vm_compute; reflexivity.
  - vm_compute; reflexivity.
  - vm_compute; reflexivity.
  - constructor; [|constructor; [|constructor; [|constructor]]].
    + exists (VStr "localhost"). split; vm_compute; reflexivity.
    + exists (VInt 8080). split; vm_compute; reflexivity.
    + exists (VBool true). split; vm_compute; reflexivity.
Defined.
